(** * CosmWasm client and multisignature aggregation

    A shallow embedding of [packages/sdk/src/cosmwasmclient.ts] (the
    [CosmWasmClient] class: fee table, account queries, transaction posting
    and the four signing operations) and of the multisignature subsystem
    exercised by [multisignature.spec.ts].

    Asynchronous methods are embedded in a state-and-exception monad: the
    state is the history of requests that left the client (REST calls and
    invocations of the signing callback), an exception is a rejected
    promise.  The remote side is an oracle that answers a request as a
    function of the history so far. *)

From Stdlib Require Import ZArith Ascii DecimalString.
From stdpp Require Import base option list strings gmap sorting.

Local Open Scope Z_scope.

(** ** JavaScript values *)

(** [Uint8Array] *)
Abbreviation bytes := (list Byte.byte).

#[export] Instance byte_eq_dec : EqDecision Byte.byte := Byte.byte_eq_dec.

(** The message of a thrown [Error]. *)
Abbreviation Error := string (only parsing).

(** Outcome of an evaluation that may throw. *)
Inductive Result (A : Type) : Type :=
  | Ok (a : A)
  | Throw (e : Error).
Arguments Ok {A} a.
Arguments Throw {A} e.

(** An integer in plain decimal: the digits, after a minus sign for a
    negative number. *)
Definition decimal_toString (n : Z) : string :=
  NilZero.string_of_int (Z.to_int n).

(** Truthiness of an optional number: [undefined] and [0] are falsy. *)
Definition truthy_number (n : option Z) : bool :=
  match n with
  | Some z => negb (z =? 0)
  | None => false
  end.

(** Truthiness of an optional string: [undefined] and [""] are falsy. *)
Definition truthy_string (s : option string) : bool :=
  match s with
  | Some EmptyString | None => false
  | Some _ => true
  end.

(** [s || d] on an optional string. *)
Definition string_or (s : option string) (d : string) : string :=
  match s with
  | Some x => if truthy_string s then x else d
  | None => d
  end.

(** A value interpolated in a template literal. *)
Definition template_string (s : option string) : string :=
  match s with
  | Some x => x
  | None => "undefined"
  end.

(** ** Types of [./types] and [./restclient]

    Their declarations are not part of these sources; the records below
    have the fields this module reads or writes. *)

Record Coin := { coin_amount : string; coin_denom : string }.

Record StdFee := { fee_amount : list Coin; fee_gas : string }.

(** The account fields this module reads. *)
Record CosmosSdkAccount := {
  address : string;
  account_number : Z;
  sequence : Z;
}.

Record AuthAccountsResult := { value : CosmosSdkAccount }.
Record AuthAccountsResponse := { result : AuthAccountsResult }.

Record NodeInfo := { network : string }.
Record NodeInfoResponse := { node_info : NodeInfo }.

(** [FeeTable] and [Partial<FeeTable>] are JavaScript objects keyed by
    ["upload"], ["init"], ["exec"], ["send"]; a key may be missing, and a
    key that is present may hold [undefined] ([None]). *)
Abbreviation FeeObject := (gmap string (option StdFee)).

(** A property read [table.key]: [undefined] for a missing key. *)
Definition get_fee (table : FeeObject) (key : string) : option StdFee :=
  default None (table !! key).

(** The four messages built by the client; [Obj] is the type of the
    JSON objects [initMsg] and [handleMsg]. *)
Record MsgStoreCodeValue := {
  store_sender : string;
  wasm_byte_code : string;
  source : string;
  builder : string;
}.

Record MsgInstantiateContractValue (Obj : Type) := {
  init_sender : string;
  code_id : string;
  init_msg : Obj;
  init_funds : list Coin;
}.
Arguments init_sender {Obj}.
Arguments code_id {Obj}.
Arguments init_msg {Obj}.
Arguments init_funds {Obj}.

Record MsgExecuteContractValue (Obj : Type) := {
  exec_sender : string;
  contract : string;
  msg : Obj;
  sent_funds : list Coin;
}.
Arguments exec_sender {Obj}.
Arguments contract {Obj}.
Arguments msg {Obj}.
Arguments sent_funds {Obj}.

Record MsgSendValue := {
  from_address : string;
  to_address : string;
  amount : list Coin;
}.

(** The constructor name stands for the [type] tag of the message:
    ["wasm/store-code"], ["wasm/instantiate"], ["wasm/execute"],
    ["cosmos-sdk/MsgSend"]. *)
Inductive Msg (Obj : Type) : Type :=
  | MsgStoreCode (v : MsgStoreCodeValue)
  | MsgInstantiateContract (v : MsgInstantiateContractValue Obj)
  | MsgExecuteContract (v : MsgExecuteContractValue Obj)
  | MsgSend (v : MsgSendValue).
Arguments MsgStoreCode {Obj} v.
Arguments MsgInstantiateContract {Obj} v.
Arguments MsgExecuteContract {Obj} v.
Arguments MsgSend {Obj} v.

(** The signed transaction handed to [marshalTx]. *)
Record StdTx (Obj Sig : Type) := {
  tx_msg : list (Msg Obj);
  tx_fee : option StdFee;
  tx_memo : string;
  tx_signatures : list Sig;
}.
Arguments tx_msg {Obj Sig}.
Arguments tx_fee {Obj Sig}.
Arguments tx_memo {Obj Sig}.
Arguments tx_signatures {Obj Sig}.

Record Attribute := { attr_key : string; attr_value : string }.

(** ** Imported collaborators

    [makeSignBytes] and [marshalTx] ([./encoding]), [parseLogs] and
    [findAttribute] ([./logs]), [Encoding.toBase64] and [Number.parseInt]
    are not part of these sources; the client is parametric in them.  A
    function that may throw returns a [Result]; [parseLogs] may moreover
    return a falsy value ([None]), which [postTx] replaces by [[]];
    [parseInt] returns [None] for [NaN].  [exponent_toString] is
    [Number.prototype.toString] on the integers that JavaScript does not
    print in plain decimal, those of magnitude 10^21 and more (1e21 is
    printed [1e+21]). *)
Class Imports := {
  JsObject : Type;
  RawLogs : Type;
  Log : Type;
  StdSignature : Type;
  makeSignBytes :
    list (Msg JsObject) → option StdFee → string → string → Z → Z → bytes;
  marshalTx : StdTx JsObject StdSignature → bytes;
  parseLogs : option RawLogs → Result (option (list Log));
  findAttribute : list Log → string → string → Result Attribute;
  parseInt : string → option Z;
  toBase64 : bytes → string;
  exponent_toString : Z → string;
}.

(** [Number.prototype.toString], and a number interpolated in a template
    literal.  The numbers of this module (result codes, amounts, code
    ids, heights) are integers: below 10^21 in magnitude they are printed
    in plain decimal, from there on in exponent form. *)
Definition number_toString `{Imports} (n : Z) : string :=
  if Z.abs n <? 10 ^ 21 then decimal_toString n else exponent_toString n.

Definition template_number `{Imports} (n : option Z) : string :=
  match n with
  | Some z => number_toString z
  | None => "undefined"
  end.

(** A request leaving the client: a REST call of the [RestClient] made for
    [url], or an invocation of the signing callback. *)
Inductive Call : Type :=
  | CallAuthAccounts (url : string) (addr : string)
  | CallNodeInfo (url : string)
  | CallPostTx (url : string) (tx : bytes)
  | CallSign (signBytes : bytes).

Abbreviation History := (list Call).

(** ** The client *)

Section Client.
Context `{imports : Imports}.

(** [PostTxsResponse] of [./restclient]: the fields [postTx] reads.  The
    [code] is the integer result code of the node, absent on success. *)
Record PostTxsResponse := {
  txhash : string;
  code : option Z;
  raw_log : option string;
  logs : option RawLogs;
}.

(** The remote node: each answer may depend on everything requested
    before. *)
Record Network := {
  net_authAccounts : History → string → string → Result AuthAccountsResponse;
  net_nodeInfo : History → string → Result NodeInfoResponse;
  net_postTx : History → string → bytes → Result PostTxsResponse;
}.

(** [SigningCallback]: the signer may be stateful too. *)
Definition SigningCallback : Type := History → bytes → Result StdSignature.

(** An asynchronous computation. *)
Definition Async (A : Type) : Type := History → Result A * History.

Definition ret {A} (a : A) : Async A := λ h, (Ok a, h).

Definition throw {A} (e : Error) : Async A := λ h, (Throw e, h).

Definition bind {A B} (m : Async A) (k : A → Async B) : Async B :=
  λ h, match m h with
       | (Ok a, h') => k a h'
       | (Throw e, h') => (Throw e, h')
       end.

(** Synchronous code that may throw, run inside an [async] function. *)
Definition lift {A} (r : Result A) : Async A := λ h, (r, h).

(** Send [c]; [answer] is the reply, given the history before [c]. *)
Definition request {A} (c : Call) (answer : History → Result A) : Async A :=
  λ h, (answer h, h ++ [c]).

Notation "'let*' x ':=' m 'in' k" := (bind m (λ x, k))
  (at level 10, x name, m at level 100, k at level 200).

Variable net : Network.

Record RestClient := { rest_url : string }.

Definition rest_authAccounts (rc : RestClient) (addr : string)
  : Async AuthAccountsResponse :=
  request (CallAuthAccounts (rest_url rc) addr)
          (λ h, net_authAccounts net h (rest_url rc) addr).

Definition rest_nodeInfo (rc : RestClient) : Async NodeInfoResponse :=
  request (CallNodeInfo (rest_url rc)) (λ h, net_nodeInfo net h (rest_url rc)).

Definition rest_postTx (rc : RestClient) (tx : bytes) : Async PostTxsResponse :=
  request (CallPostTx (rest_url rc) tx) (λ h, net_postTx net h (rest_url rc) tx).

Definition call_sign (cb : SigningCallback) (signBytes : bytes)
  : Async StdSignature :=
  request (CallSign signBytes) (λ h, cb h signBytes).

(** [singleAmount] *)
Definition singleAmount (amount : Z) (denom : string) : list Coin :=
  [ {| coin_amount := number_toString amount; coin_denom := denom |} ].

(** [defaultFees] *)
Definition defaultFees : FeeObject :=
  {[ "upload" := Some {| fee_amount := singleAmount 25000 "ucosm";
                         fee_gas := "1000000" |};
     "init" := Some {| fee_amount := singleAmount 12500 "ucosm";
                       fee_gas := "500000" |};
     "exec" := Some {| fee_amount := singleAmount 5000 "ucosm";
                       fee_gas := "200000" |};
     "send" := Some {| fee_amount := singleAmount 2000 "ucosm";
                       fee_gas := "80000" |} ]}.

Record SigningData := {
  sd_senderAddress : string;
  sd_signCallback : SigningCallback;
}.

Record GetNonceResult := { accountNumber : Z; nonce_sequence : Z }.

Record PostTxResult := {
  res_logs : list Log;
  rawLog : string;
  transactionHash : string;
}.

Record ExecuteResult := { exec_logs : list Log }.

Record CosmWasmClient := {
  restClient : RestClient;
  signingData : option SigningData;
  fees : FeeObject;
}.

(** The private constructor.  The spread
    [{ ...defaultFees, ...customFees }] keeps every key of either object
    and takes the value of [customFees] where both have the key. *)
Definition new_CosmWasmClient (url : string) (sd : option SigningData)
    (customFees : FeeObject) : CosmWasmClient :=
  {| restClient := {| rest_url := url |};
     signingData := sd;
     fees := customFees ∪ defaultFees |}.

Definition makeReadOnly (url : string) : CosmWasmClient :=
  new_CosmWasmClient url None ∅.

(** [feeTable || {}]: an object is truthy, only [undefined] is replaced. *)
Definition makeWritable (url : string) (sender : string)
    (cb : SigningCallback) (feeTable : option FeeObject) : CosmWasmClient :=
  new_CosmWasmClient url
    (Some {| sd_senderAddress := sender; sd_signCallback := cb |})
    (default ∅ feeTable).

Definition no_signing_data : Error := "Signing data not set in this client".

(** The getters [senderAddress] and [signCallback]. *)
Definition senderAddress (c : CosmWasmClient) : Result string :=
  match signingData c with
  | None => Throw no_signing_data
  | Some sd => Ok (sd_senderAddress sd)
  end.

Definition signCallback (c : CosmWasmClient) : Result SigningCallback :=
  match signingData c with
  | None => Throw no_signing_data
  | Some sd => Ok (sd_signCallback sd)
  end.

Definition chainId (c : CosmWasmClient) : Async string :=
  let* response := rest_nodeInfo (restClient c) in
  ret (network (node_info response)).

(** [address || this.senderAddress]: the getter runs only when
    [address] is falsy. *)
Definition address_or_sender (c : CosmWasmClient) (addr : option string)
  : Result string :=
  match addr with
  | Some a => if truthy_string addr then Ok a else senderAddress c
  | None => senderAddress c
  end.

Definition getAccount (c : CosmWasmClient) (addr : option string)
  : Async (option CosmosSdkAccount) :=
  let* a := lift (address_or_sender c addr) in
  let* account := rest_authAccounts (restClient c) a in
  let v := value (result account) in
  ret (if decide (address v = "") then None else Some v).

Definition account_missing : Error :=
  "Account does not exist on chain. Send some tokens there before trying to query nonces.".

Definition getNonce (c : CosmWasmClient) (addr : option string)
  : Async GetNonceResult :=
  let* account := getAccount c addr in
  match account with
  | None => throw account_missing
  | Some acc =>
      ret {| accountNumber := account_number acc;
             nonce_sequence := sequence acc |}
  end.

(** The test [/^([0-9A-F][0-9A-F])+$/] on [txhash]. *)
Definition is_upper_hex (c : ascii) : bool :=
  let n := N_of_ascii c in
  ((48 <=? n) && (n <=? 57) || (65 <=? n) && (n <=? 70))%N.

Fixpoint hex_pairs (s : string) : bool :=
  match s with
  | EmptyString => true
  | String a (String b rest) =>
      is_upper_hex a && is_upper_hex b && hex_pairs rest
  | String _ EmptyString => false
  end.

Definition txhash_matches (s : string) : bool :=
  match s with
  | EmptyString => false
  | _ => hex_pairs s
  end.

Definition posting_error (c : option Z) (log : option string) : Error :=
  "Error when posting tx. Code: " +:+ template_number c
    +:+ "; Raw log: " +:+ template_string log.

Definition bad_txhash : Error :=
  "Received ill-formatted txhash. Must be non-empty upper-case hex".

Definition postTx (c : CosmWasmClient) (tx : bytes) : Async PostTxResult :=
  let* res := rest_postTx (restClient c) tx in
  if truthy_number (code res) then
    throw (posting_error (code res) (raw_log res))
  else if negb (txhash_matches (txhash res)) then
    throw bad_txhash
  else
    let* parsed := lift (parseLogs (logs res)) in
    ret {| res_logs := default [] parsed;
           rawLog := string_or (raw_log res) "";
           transactionHash := txhash res |}.

(** [upload]; the result is a number, [None] standing for [NaN]. *)
Definition upload (c : CosmWasmClient) (wasmCode : bytes)
    (memo_arg : option string) : Async (option Z) :=
  let memo := default "" memo_arg in
  let* sender := lift (senderAddress c) in
  let storeCodeMsg :=
    MsgStoreCode {| store_sender := sender;
                    wasm_byte_code := toBase64 wasmCode;
                    source := "";
                    builder := "" |} in
  let fee := get_fee (fees c) "upload" in
  let* nonce := getNonce c None in
  let* chain := chainId c in
  let signBytes :=
    makeSignBytes [storeCodeMsg] fee chain memo
                  (accountNumber nonce) (nonce_sequence nonce) in
  let* cb := lift (signCallback c) in
  let* signature := call_sign cb signBytes in
  let signedTx :=
    {| tx_msg := [storeCodeMsg]; tx_fee := fee; tx_memo := memo;
       tx_signatures := [signature] |} in
  let* res := postTx c (marshalTx signedTx) in
  let* codeIdAttr := lift (findAttribute (res_logs res) "message" "code_id") in
  ret (parseInt (attr_value codeIdAttr)).

Definition instantiate (c : CosmWasmClient) (codeId : Z) (initMsg : JsObject)
    (memo_arg : option string) (transferAmount : option (list Coin))
  : Async string :=
  let memo := default "" memo_arg in
  let* sender := lift (senderAddress c) in
  let instantiateMsg :=
    MsgInstantiateContract {| init_sender := sender;
                              code_id := number_toString codeId;
                              init_msg := initMsg;
                              init_funds := default [] transferAmount |} in
  let fee := get_fee (fees c) "init" in
  let* nonce := getNonce c None in
  let* chain := chainId c in
  let signBytes :=
    makeSignBytes [instantiateMsg] fee chain memo
                  (accountNumber nonce) (nonce_sequence nonce) in
  let* cb := lift (signCallback c) in
  let* signature := call_sign cb signBytes in
  let signedTx :=
    {| tx_msg := [instantiateMsg]; tx_fee := fee; tx_memo := memo;
       tx_signatures := [signature] |} in
  let* res := postTx c (marshalTx signedTx) in
  let* contractAddressAttr :=
    lift (findAttribute (res_logs res) "message" "contract_address") in
  ret (attr_value contractAddressAttr).

Definition execute (c : CosmWasmClient) (contractAddress : string)
    (handleMsg : JsObject) (memo_arg : option string)
    (transferAmount : option (list Coin)) : Async ExecuteResult :=
  let memo := default "" memo_arg in
  let* sender := lift (senderAddress c) in
  let executeMsg :=
    MsgExecuteContract {| exec_sender := sender;
                          contract := contractAddress;
                          msg := handleMsg;
                          sent_funds := default [] transferAmount |} in
  let fee := get_fee (fees c) "exec" in
  let* nonce := getNonce c None in
  let* chain := chainId c in
  let signBytes :=
    makeSignBytes [executeMsg] fee chain memo
                  (accountNumber nonce) (nonce_sequence nonce) in
  let* cb := lift (signCallback c) in
  let* signature := call_sign cb signBytes in
  let signedTx :=
    {| tx_msg := [executeMsg]; tx_fee := fee; tx_memo := memo;
       tx_signatures := [signature] |} in
  let* res := postTx c (marshalTx signedTx) in
  ret {| exec_logs := res_logs res |}.

Definition sendTokens (c : CosmWasmClient) (recipientAddress : string)
    (transferAmount : list Coin) (memo_arg : option string)
  : Async PostTxResult :=
  let memo := default "" memo_arg in
  let* sender := lift (senderAddress c) in
  let sendMsg :=
    MsgSend {| from_address := sender;
               to_address := recipientAddress;
               amount := transferAmount |} in
  let fee := get_fee (fees c) "send" in
  let* nonce := getNonce c None in
  let* chain := chainId c in
  let signBytes :=
    makeSignBytes [sendMsg] fee chain memo
                  (accountNumber nonce) (nonce_sequence nonce) in
  let* cb := lift (signCallback c) in
  let* signature := call_sign cb signBytes in
  let signedTx :=
    {| tx_msg := [sendMsg]; tx_fee := fee; tx_memo := memo;
       tx_signatures := [signature] |} in
  postTx c (marshalTx signedTx).

(** *** What an operation sends *)

(** [emits P m]: from every history, [m] appends requests satisfying [P]
    and leaves the earlier history as it is. *)
Definition emits {A} (P : History → Prop) (m : Async A) : Prop :=
  ∀ h, ∃ new, (m h).2 = h ++ new ∧ P new.

(** A property of request sequences that holds of the empty one and of
    concatenations. *)
Class Compositional (P : History → Prop) : Prop := {
  holds_nil : P [];
  holds_app new1 new2 : P new1 → P new2 → P (new1 ++ new2);
}.

(** Every signing request and every posted transaction among the
    requests [new] was built with the fee [f]. *)
Definition uses_fee (f : option StdFee) (new : History) : Prop :=
  (∀ b, CallSign b ∈ new →
     ∃ msgs chain memo an sq, b = makeSignBytes msgs f chain memo an sq)
  ∧ (∀ url tx, CallPostTx url tx ∈ new →
     ∃ stx, tx = marshalTx stx ∧ tx_fee stx = f).

End Client.

(** ** The course of a signing operation

    [upload], [instantiate], [execute] and [sendTokens] repeat the same
    statements between building their message and reading the result of
    [postTx].  The definitions below name that common course and the
    answers it meets, for stating what the operations do as a whole. *)

Section Course.
Context `{imports : Imports}.
Variable net : Network.

Notation "'let*' x ':=' m 'in' k" := (bind m (λ x, k))
  (at level 10, x name, m at level 100, k at level 200).

(** What [postTx] makes of an answer of the node (lines 218-230). *)
Definition postTx_outcome (res : PostTxsResponse) : Result PostTxResult :=
  if truthy_number (code res) then
    Throw (posting_error (code res) (raw_log res))
  else if negb (txhash_matches (txhash res)) then Throw bad_txhash
  else
    match parseLogs (logs res) with
    | Ok parsed =>
        Ok {| res_logs := default [] parsed;
              rawLog := string_or (raw_log res) "";
              transactionHash := txhash res |}
    | Throw e => Throw e
    end.

(** The statements from [getNonce] to [postTx], as they stand in each of
    the four operations, for the message [m] and the fee [f]. *)
Definition sign_and_post (c : CosmWasmClient) (m : Msg JsObject)
    (f : option StdFee) (memo : string) : Async PostTxResult :=
  let* nonce := getNonce net c None in
  let* chain := chainId net c in
  let signBytes :=
    makeSignBytes [m] f chain memo
                  (accountNumber nonce) (nonce_sequence nonce) in
  let* cb := lift (signCallback c) in
  let* signature := call_sign cb signBytes in
  let signedTx :=
    {| tx_msg := [m]; tx_fee := f; tx_memo := memo;
       tx_signatures := [signature] |} in
  postTx net c (marshalTx signedTx).

(** The answers met by an operation that gets as far as posting. *)
Record Script := {
  on_account : AuthAccountsResponse;
  on_info : NodeInfoResponse;
  on_sign : StdSignature;
  on_post : PostTxsResponse;
}.

Definition script_signBytes (s : Script) (m : Msg JsObject)
    (f : option StdFee) (memo : string) : bytes :=
  makeSignBytes [m] f (network (node_info (on_info s))) memo
                (account_number (value (result (on_account s))))
                (sequence (value (result (on_account s)))).

Definition script_tx (s : Script) (m : Msg JsObject) (f : option StdFee)
    (memo : string) : bytes :=
  marshalTx {| tx_msg := [m]; tx_fee := f; tx_memo := memo;
               tx_signatures := [on_sign s] |}.

(** The first three requests of the course, and all four. *)
Definition requests_before_post (url sender : string) (s : Script)
    (m : Msg JsObject) (f : option StdFee) (memo : string) : History :=
  [CallAuthAccounts url sender; CallNodeInfo url;
   CallSign (script_signBytes s m f memo)].

Definition script_requests (url sender : string) (s : Script)
    (m : Msg JsObject) (f : option StdFee) (memo : string) : History :=
  requests_before_post url sender s m f memo
    ++ [CallPostTx url (script_tx s m f memo)].

(** [answered c sd h m f memo s]: the client [c] signs with [sd], and from
    the history [h] on, the node and the signer answer the requests of the
    course as [s] says; the account exists. *)
Definition answered (c : CosmWasmClient) (sd : SigningData) (h : History)
    (m : Msg JsObject) (f : option StdFee) (memo : string) (s : Script)
  : Prop :=
  let url := rest_url (restClient c) in
  let sender := sd_senderAddress sd in
  signingData c = Some sd
  ∧ net_authAccounts net h url sender = Ok (on_account s)
  ∧ address (value (result (on_account s))) ≠ ""
  ∧ net_nodeInfo net (h ++ [CallAuthAccounts url sender]) url
    = Ok (on_info s)
  ∧ sd_signCallback sd
      (h ++ [CallAuthAccounts url sender; CallNodeInfo url])
      (script_signBytes s m f memo)
    = Ok (on_sign s)
  ∧ net_postTx net (h ++ requests_before_post url sender s m f memo)
               url (script_tx s m f memo)
    = Ok (on_post s).

(** The endpoint a request goes to; the signer has none. *)
Definition call_url (call : Call) : option string :=
  match call with
  | CallAuthAccounts url _ | CallNodeInfo url | CallPostTx url _ => Some url
  | CallSign _ => None
  end.

(** All REST calls among [new] go to [url]. *)
Definition only_to (url : string) (new : History) : Prop :=
  Forall (λ call, ∀ u, call_url call = Some u → u = url) new.

End Course.

(** ** Queries

    [getIdentifier], [getBlock], [searchTx], [queryContractRaw] and
    [queryContractSmart] use REST calls of their own.  [queryContractSmart]
    tells a thrown [Error] from any other thrown value, so a rejection
    carries either here. *)

(** A thrown value: an [Error] with its message, or something else. *)
Inductive Thrown (V : Type) : Type :=
  | ThrownError (message : string)
  | ThrownValue (v : V).
Arguments ThrownError {V} message.
Arguments ThrownValue {V} v.

(** A settled promise. *)
Inductive Settled (V A : Type) : Type :=
  | Fulfilled (a : A)
  | Rejected (t : Thrown V).
Arguments Fulfilled {V A} a.
Arguments Rejected {V A} t.

(** [TxsResponse] of [./restclient]: the hash, read by [searchTx], and the
    rest of the transaction. *)
Record TxsResponse (Body : Type) := {
  txs_txhash : string;
  txs_body : Body;
}.
Arguments txs_txhash {Body}.
Arguments txs_body {Body}.

Record SearchTxsResponse (Body : Type) := { txs : list (TxsResponse Body) }.
Arguments txs {Body}.

(** A [SearchTxQuery] at run time: an object whose fields [id], [height]
    and [sentFromOrTo] are each defined or not. *)
Record SearchTxQuery := {
  query_id : option string;
  query_height : option Z;
  query_sentFromOrTo : option string;
}.

(** [Encoding.toHex] of [@iov/encoding]: two lower-case digits a byte. *)
Definition hex_digit (n : N) : ascii :=
  if (n <? 10)%N then ascii_of_N (48 + n) else ascii_of_N (87 + n).

Fixpoint toHex (data : bytes) : string :=
  match data with
  | [] => EmptyString
  | b :: rest =>
      String (hex_digit (Byte.to_N b / 16))
        (String (hex_digit (Byte.to_N b mod 16)) (toHex rest))
  end.

(** [String.prototype.toUpperCase] on ASCII text. *)
Definition upper_ascii (c : ascii) : ascii :=
  let n := N_of_ascii c in
  if ((97 <=? n) && (n <=? 122))%N then ascii_of_N (n - 32) else c.

Fixpoint toUpperCase (s : string) : string :=
  match s with
  | EmptyString => EmptyString
  | String c rest => String (upper_ascii c) (toUpperCase rest)
  end.

(** Reading upper-case hex back: the value of a digit, and the bytes of a
    text of digit pairs. *)
Definition hex_value (c : ascii) : option N :=
  let n := N_of_ascii c in
  if ((48 <=? n) && (n <=? 57))%N then Some (n - 48)%N
  else if ((65 <=? n) && (n <=? 70))%N then Some (n - 55)%N
  else None.

Fixpoint fromUpperHex (s : string) : option bytes :=
  match s with
  | EmptyString => Some []
  | String a (String b rest) =>
      match hex_value a, hex_value b, fromUpperHex rest with
      | Some high, Some low, Some data =>
          match Byte.of_N (16 * high + low) with
          | Some byte => Some (byte :: data)
          | None => None
          end
      | _, _, _ => None
      end
  | String _ EmptyString => None
  end.

(** The double quote character. *)
Definition double_quote : string := String (ascii_of_N 34) EmptyString.

Section Queries.
Context `{imports : Imports}.
(** Types of [./types] and [./restclient] that the queries pass on
    unread, the values other than [Error]s that a call may throw, and
    [Sha256] of [@iov/crypto]. *)
Context {CosmosSdkTx BlockResponse ContractInfo TxBody NonError : Type}.
Variable sha256 : bytes → bytes.

Inductive QueryCall : Type :=
  | CallEncodeTx (url : string) (tx : CosmosSdkTx)
  | CallBlocks (url : string) (height : Z)
  | CallBlocksLatest (url : string)
  | CallTxs (url : string) (query : string)
  | CallContractInfo (url : string) (addr : string)
  | CallQueryRaw (url : string) (addr : string) (key : bytes)
  | CallQuerySmart (url : string) (addr : string) (queryMsg : JsObject).

Abbreviation QueryHistory := (list QueryCall).
Abbreviation Answer A := (Settled NonError A).

(** The node as the queries see it. *)
Record QueryNetwork := {
  net_encodeTx : QueryHistory → string → CosmosSdkTx → Answer bytes;
  net_blocks : QueryHistory → string → Z → Answer BlockResponse;
  net_blocksLatest : QueryHistory → string → Answer BlockResponse;
  net_txs : QueryHistory → string → string → Answer (SearchTxsResponse TxBody);
  net_getContractInfo : QueryHistory → string → string → Answer ContractInfo;
  net_queryContractRaw :
    QueryHistory → string → string → bytes → Answer (option bytes);
  net_queryContractSmart :
    QueryHistory → string → string → JsObject → Answer bytes;
}.

(** An asynchronous query. *)
Definition Task (A : Type) : Type := QueryHistory → Answer A * QueryHistory.

Definition task_ret {A} (a : A) : Task A := λ h, (Fulfilled a, h).

Definition task_throw {A} (t : Thrown NonError) : Task A :=
  λ h, (Rejected t, h).

Definition task_bind {A B} (m : Task A) (k : A → Task B) : Task B :=
  λ h, match m h with
       | (Fulfilled a, h') => k a h'
       | (Rejected t, h') => (Rejected t, h')
       end.

(** [try { return await m } catch (error) { handler }] *)
Definition task_catch {A} (m : Task A) (handler : Thrown NonError → Task A)
  : Task A :=
  λ h, match m h with
       | (Fulfilled a, h') => (Fulfilled a, h')
       | (Rejected t, h') => handler t h'
       end.

Definition task_request {A} (c : QueryCall) (answer : QueryHistory → Answer A)
  : Task A :=
  λ h, (answer h, h ++ [c]).

Notation "'let*' x ':=' m 'in' k" := (task_bind m (λ x, k))
  (at level 10, x name, m at level 100, k at level 200).

Variable qnet : QueryNetwork.

Definition rest_encodeTx (rc : RestClient) (tx : CosmosSdkTx) : Task bytes :=
  task_request (CallEncodeTx (rest_url rc) tx)
               (λ h, net_encodeTx qnet h (rest_url rc) tx).

Definition rest_blocks (rc : RestClient) (height : Z) : Task BlockResponse :=
  task_request (CallBlocks (rest_url rc) height)
               (λ h, net_blocks qnet h (rest_url rc) height).

Definition rest_blocksLatest (rc : RestClient) : Task BlockResponse :=
  task_request (CallBlocksLatest (rest_url rc))
               (λ h, net_blocksLatest qnet h (rest_url rc)).

Definition rest_txs (rc : RestClient) (query : string)
  : Task (SearchTxsResponse TxBody) :=
  task_request (CallTxs (rest_url rc) query)
               (λ h, net_txs qnet h (rest_url rc) query).

Definition rest_getContractInfo (rc : RestClient) (addr : string)
  : Task ContractInfo :=
  task_request (CallContractInfo (rest_url rc) addr)
               (λ h, net_getContractInfo qnet h (rest_url rc) addr).

Definition rest_queryContractRaw (rc : RestClient) (addr : string)
    (key : bytes) : Task (option bytes) :=
  task_request (CallQueryRaw (rest_url rc) addr key)
               (λ h, net_queryContractRaw qnet h (rest_url rc) addr key).

Definition rest_queryContractSmart (rc : RestClient) (addr : string)
    (queryMsg : JsObject) : Task bytes :=
  task_request (CallQuerySmart (rest_url rc) addr queryMsg)
               (λ h, net_queryContractSmart qnet h (rest_url rc) addr queryMsg).

(** [getIdentifier] *)
Definition getIdentifier (c : CosmWasmClient) (tx : CosmosSdkTx)
  : Task string :=
  let* encoded := rest_encodeTx (restClient c) tx in
  let hash := sha256 encoded in
  task_ret (toUpperCase (toHex hash)).

(** [getBlock]; the test is [height !== undefined], so height 0 is a
    height. *)
Definition getBlock (c : CosmWasmClient) (height : option Z)
  : Task BlockResponse :=
  match height with
  | Some n => rest_blocks (restClient c) n
  | None => rest_blocksLatest (restClient c)
  end.

(** [limited], local to [searchTx] *)
Definition limited (originalQuery : string) : string :=
  originalQuery +:+ "&limit=75".

(** [searchTx]; the three type guards test their field against
    [undefined], in this order. *)
Definition searchTx (c : CosmWasmClient) (query : SearchTxQuery)
  : Task (list (TxsResponse TxBody)) :=
  match query_id query with
  | Some id =>
      let* found := rest_txs (restClient c) ("tx.hash=" +:+ id) in
      task_ret (txs found)
  | None =>
  match query_height query with
  | Some height =>
      let* found :=
        rest_txs (restClient c) ("tx.height=" +:+ number_toString height) in
      task_ret (txs found)
  | None =>
  match query_sentFromOrTo query with
  | Some who =>
      let* sentAnswer :=
        rest_txs (restClient c) (limited ("message.sender=" +:+ who)) in
      let sent := txs sentAnswer in
      let* receivedAnswer :=
        rest_txs (restClient c) (limited ("transfer.recipient=" +:+ who)) in
      let received := txs receivedAnswer in
      let sentHashes := txs_txhash <$> sent in
      task_ret
        (sent ++ filter (λ t, txs_txhash t ∉ sentHashes) received)
  | None => task_throw (ThrownError "Unknown query type")
  end end end.

(** [queryContractRaw]: the contract info is fetched only to see that the
    contract exists. *)
Definition queryContractRaw (c : CosmWasmClient) (addr : string) (key : bytes)
  : Task (option bytes) :=
  let* _info := rest_getContractInfo (restClient c) addr in
  rest_queryContractRaw (restClient c) addr key.

Definition no_contract_found (addr : string) : string :=
  "No contract found at address " +:+ double_quote +:+ addr +:+ double_quote.

(** [queryContractSmart] *)
Definition queryContractSmart (c : CosmWasmClient) (addr : string)
    (queryMsg : JsObject) : Task bytes :=
  task_catch (rest_queryContractSmart (restClient c) addr queryMsg)
    (λ error,
       match error with
       | ThrownError message =>
           if decide (message = "not found: contract") then
             task_throw (ThrownError (no_contract_found addr))
           else task_throw error
       | ThrownValue _ => task_throw error
       end).

End Queries.

(** ** Multisignature subsystem

    [multisignature.spec.ts] calls [createMultisigThresholdPubkey],
    [pubkeyToAddress] and [makeMultisignedTx]; their modules
    ([@cosmjs/amino], [./multisignature]) are not part of these sources.
    They are modelled from the specification (§3, §4.1, §4.2, §4.3, §4.4). *)

Module Multisig.

(** Modelled from the spec: [PublicKey], the [Single] variant (§3). *)
Record SinglePublicKey := {
  curve : string;
  compressed_bytes : bytes;
}.

#[export] Instance SinglePublicKey_eq_dec : EqDecision SinglePublicKey.
Proof. solve_decision. Defined.

(** Modelled from the spec: [PublicKey], the [Threshold] variant (§3).
    The members are single-signer keys, as [createThresholdPublicKey]
    takes them and as [RawSignature] carries them. *)
Record ThresholdPublicKey := {
  threshold : N;
  members : list SinglePublicKey;
}.

(** Modelled from the spec: the tagged union [PublicKey] (§3). *)
Inductive PublicKey : Type :=
  | Single (k : SinglePublicKey)
  | Threshold (k : ThresholdPublicKey).

(** Modelled from the spec: the error taxonomy of §7, as far as the
    multisignature operations raise it. *)
Inductive MultisigError : Type :=
  | InvalidThresholdError
  | UnknownSignerError
  | NoSignaturesError
  | MalformedEnvelopeError.

(** Modelled from the spec: an operation returns its value or fails with
    one of the errors of §7. *)
Inductive Outcome (A : Type) : Type :=
  | Success (a : A)
  | Failure (e : MultisigError).
Arguments Success {A} a.
Arguments Failure {A} e.

(** Modelled from the spec: [RawSignature] (§3). *)
Record RawSignature := {
  public_key : SinglePublicKey;
  signature_bytes : bytes;
}.

(** Modelled from the spec: [MultisigSignatureData] (§3). *)
Record MultisigSignatureData := {
  bit_array : list bool;
  signatures : list bytes;
}.

(** Modelled from the spec: [SignedTxEnvelope] (§3). *)
Record SignedTxEnvelope := {
  body_bytes : bytes;
  fee : StdFee;
  signer_infos : list (PublicKey * N);
  env_signatures : list bytes;
}.

(** Modelled from the spec: [count_set_bits] (§3). *)
Definition count_set_bits (bits : list bool) : nat :=
  length (filter (λ b, b = true) bits).

(** Modelled from the spec: the ascending comparison of compressed byte
    sequences (§3, §4.1), byte by byte, a proper prefix coming first. *)
Fixpoint bytes_leb (a b : bytes) : bool :=
  match a, b with
  | [], _ => true
  | _ :: _, [] => false
  | x :: a', y :: b' =>
      if (Byte.to_N x <? Byte.to_N y)%N then true
      else if (Byte.to_N y <? Byte.to_N x)%N then false
      else bytes_leb a' b'
  end.

(** Modelled from the spec: the canonical order of members (§3), the
    order of their compressed byte sequences. *)
Definition key_le (k1 k2 : SinglePublicKey) : Prop :=
  bytes_leb (compressed_bytes k1) (compressed_bytes k2) = true.

#[export] Instance key_le_dec k1 k2 : Decision (key_le k1 k2).
Proof. unfold key_le. apply _. Defined.

(** Modelled from the spec: [createThresholdPublicKey] (§4.1); the
    function itself ([createMultisigThresholdPubkey] of [@cosmjs/amino])
    is missing.  The input set is a duplicate-free list in the caller's
    order. *)
Definition createThresholdPublicKey (keys : list SinglePublicKey) (t : N)
  : Outcome ThresholdPublicKey :=
  if decide (1 ≤ t ∧ t ≤ N.of_nat (length keys))%N then
    Success {| threshold := t; members := merge_sort key_le keys |}
  else Failure InvalidThresholdError.

(** The positions of the set bits of a bit array, in increasing order;
    [set_positions_from i] numbers the first position [i]. *)
Fixpoint set_positions_from (i : nat) (bits : list bool) : list nat :=
  match bits with
  | [] => []
  | b :: bits' =>
      if b then i :: set_positions_from (S i) bits'
      else set_positions_from (S i) bits'
  end.

Definition set_positions (bits : list bool) : list nat :=
  set_positions_from 0 bits.

Section Aggregation.
(** Modelled from the spec: [Address] and [deriveAddress] (§3, §4.1), a
    one-way hash that is a parameter here, and the serialization of
    [MultisigSignatureData] into the signature slot (§3); the prefix
    is the one of the network the signers' addresses are on. *)
Context {Address : Type} `{EqDecision Address}.
Variable deriveAddress : PublicKey → string → Address.
Variable network_prefix : string.
Variable serialize : MultisigSignatureData → bytes.

(** Modelled from the spec: [mapping<Address, RawSignature>] (§4.3), the
    entries in the order they were inserted; the addresses of a mapping
    are distinct. *)
Abbreviation SignatureMap := (list (Address * RawSignature)).

(** Modelled from the spec: the entry of the mapping for an address. *)
Fixpoint map_get (sigs : SignatureMap) (a : Address) : option RawSignature :=
  match sigs with
  | [] => None
  | (a', s) :: rest => if decide (a' = a) then Some s else map_get rest a
  end.

(** Modelled from the spec: the mapping contains an entry whose address
    equals [a] (§4.3, step 2). *)
Definition map_has (sigs : SignatureMap) (a : Address) : bool :=
  bool_decide (a ∈ sigs.*1).

(** Modelled from the spec: step 1 of [aggregate] (§4.3), the members'
    addresses in canonical member order. *)
Definition member_addresses (key : ThresholdPublicKey) : list Address :=
  (λ m, deriveAddress (Single m) network_prefix) <$> members key.

(** Modelled from the spec: step 2 of [aggregate] (§4.3); position [i]
    is set iff the mapping has an entry for the address of member [i]. *)
Definition build_bit_array (addrs : list Address) (sigs : SignatureMap)
  : list bool :=
  map_has sigs <$> addrs.

(** Modelled from the spec: step 3 of [aggregate] (§4.3), the signature
    bytes of the set positions, by ascending index. *)
Fixpoint collect_signatures (bits : list bool) (addrs : list Address)
    (sigs : SignatureMap) : list bytes :=
  match bits, addrs with
  | b :: bits', a :: addrs' =>
      match (if b then map_get sigs a else None) with
      | Some s => signature_bytes s :: collect_signatures bits' addrs' sigs
      | None => collect_signatures bits' addrs' sigs
      end
  | _, _ => []
  end.

(** [placed addrs sigs off i s]: [s] is the signature the mapping holds
    for the address at position [i], positions being counted from
    [off]. *)
Definition placed (addrs : list Address) (sigs : SignatureMap)
    (off i : nat) (s : bytes) : Prop :=
  (off ≤ i)%nat
  ∧ ∃ a raw, addrs !! (i - off)%nat = Some a
             ∧ map_get sigs a = Some raw ∧ s = signature_bytes raw.

(** Modelled from the spec: step 4 of [aggregate] (§4.3); some entry of
    the mapping is for no member. *)
Definition has_unknown_signer (addrs : list Address) (sigs : SignatureMap)
  : bool :=
  bool_decide (Exists (λ a, a ∉ addrs) sigs.*1).

(** Modelled from the spec: [aggregate] (§4.3), the core of the missing
    [makeMultisignedTx]; steps 4 and 5 are its two failures, and the
    threshold of the key is not looked at. *)
Definition aggregate (key : ThresholdPublicKey) (sigs : SignatureMap)
  : Outcome MultisigSignatureData :=
  let addrs := member_addresses key in
  let bits := build_bit_array addrs sigs in
  let collected := collect_signatures bits addrs sigs in
  if has_unknown_signer addrs sigs then Failure UnknownSignerError
  else if decide (count_set_bits bits = 0%nat) then Failure NoSignaturesError
  else Success {| bit_array := bits; signatures := collected |}.

(** Modelled from the spec: [buildSignedEnvelope] (§4.2). *)
Definition buildSignedEnvelope (body : bytes) (f : StdFee)
    (infos : list (PublicKey * N)) (sigs : list bytes)
  : Outcome SignedTxEnvelope :=
  if decide (length infos = length sigs) then
    Success {| body_bytes := body; fee := f; signer_infos := infos;
               env_signatures := sigs |}
  else Failure MalformedEnvelopeError.

(** Modelled from the spec: [finalizeMultisigTx] (§4.4), the missing
    [makeMultisignedTx]. *)
Definition finalizeMultisigTx (key : ThresholdPublicKey) (seq : N)
    (f : StdFee) (body : bytes) (sigs : SignatureMap)
  : Outcome SignedTxEnvelope :=
  match aggregate key sigs with
  | Success data =>
      buildSignedEnvelope body f [(Threshold key, seq)] [serialize data]
  | Failure e => Failure e
  end.

End Aggregation.

End Multisig.

(** ** A concrete setting for running the client

    Stand-ins for the imported collaborators and a scripted node, on which
    the operations evaluate to closed values. *)

Module Sample.

(** The gas of a fee, as text. *)
Definition gas_text (f : option StdFee) : string :=
  match f with
  | Some f => fee_gas f
  | None => "undefined"
  end.

#[local] Instance imports : Imports := {|
  JsObject := string;
  RawLogs := list string;
  Log := string;
  StdSignature := bytes;
  makeSignBytes := λ _ f chain memo _ _,
    String.list_byte_of_string (chain +:+ "/" +:+ memo +:+ "/" +:+ gas_text f);
  marshalTx := λ stx,
    String.list_byte_of_string (tx_memo stx +:+ "/" +:+ gas_text (tx_fee stx));
  parseLogs := λ raw, Ok raw;
  findAttribute := λ _ event key,
    Ok {| attr_key := key; attr_value := event |};
  parseInt := λ _, None;
  toBase64 := λ _, "";
  exponent_toString := λ _, "1e+21";
|}.

Definition rejected : PostTxsResponse :=
  {| txhash := "0A1B"; code := Some 5; raw_log := Some "insufficient fee";
     logs := None |}.

Definition no_hash : PostTxsResponse :=
  {| txhash := ""; code := Some 0; raw_log := Some "[]";
     logs := Some (@nil string) |}.

Definition accepted : PostTxsResponse :=
  {| txhash := "0A1B"; code := Some 0; raw_log := Some "[]";
     logs := Some (@nil string) |}.

Definition alice : string := "cosmos1pkptre7fdkl6gfrzlesjjvhxhlc3r4gmmk8rs6".

Definition alice_account : CosmosSdkAccount :=
  {| address := alice; account_number := 7; sequence := 42 |}.

Definition no_account : CosmosSdkAccount :=
  {| address := ""; account_number := 0; sequence := 0 |}.

(** A signer that returns the sign bytes as the signature. *)
Definition signer : SigningCallback := λ _ signBytes, Ok signBytes.

(** The node knows one account; it rejects what is posted under
    ["http://rejecting"] with code 5, answers with an empty hash under
    ["http://nohash"], and accepts everything else. *)
Definition node : Network := {|
  net_authAccounts := λ _ _ addr,
    Ok {| result := {| value :=
      if decide (addr = alice) then alice_account else no_account |} |};
  net_nodeInfo := λ _ _, Ok {| node_info := {| network := "testing" |} |};
  net_postTx := λ _ url _,
    if decide (url = "http://rejecting") then Ok rejected
    else if decide (url = "http://nohash") then Ok no_hash
    else Ok accepted;
|}.

End Sample.

(** ** A concrete setting for the multisignature subsystem

    Five keys as in [multisignature.spec.ts], with two-byte stand-ins for
    the compressed keys and a transparent stand-in for the address hash. *)

Module MultisigSample.
Import Multisig.

Definition key_of (b1 b2 : Byte.byte) : SinglePublicKey :=
  {| curve := "secp256k1"; compressed_bytes := [b1; b2] |}.

Definition pubkey0 : SinglePublicKey := key_of Byte.x03 Byte.xf1.
Definition pubkey1 : SinglePublicKey := key_of Byte.x02 Byte.xa7.
Definition pubkey2 : SinglePublicKey := key_of Byte.x03 Byte.x0c.
Definition pubkey3 : SinglePublicKey := key_of Byte.x02 Byte.x1d.
Definition pubkey4 : SinglePublicKey := key_of Byte.x02 Byte.xff.


Definition key_text (k : SinglePublicKey) : string :=
  String.string_of_list_byte (compressed_bytes k).

Definition pubkeyToAddress (k : PublicKey) (prefix : string) : string :=
  match k with
  | Single k => prefix +:+ "1" +:+ key_text k
  | Threshold k =>
      prefix +:+ "1m"
        +:+ foldr (λ m acc, key_text m +:+ acc) "" (members k)
  end.

Definition address_of (k : SinglePublicKey) : string :=
  pubkeyToAddress (Single k) "cosmos".

Definition signature_of (k : SinglePublicKey) (b : Byte.byte) : RawSignature :=
  {| public_key := k; signature_bytes := [b] |}.

Definition signature0 := signature_of pubkey0 Byte.x10.
Definition signature1 := signature_of pubkey1 Byte.x11.
Definition signature2 := signature_of pubkey2 Byte.x12.
Definition signature3 := signature_of pubkey3 Byte.x13.
Definition signature4 := signature_of pubkey4 Byte.x14.

(** The 2-of-5 key of the test, members in canonical order. *)
Definition multisigPubkey : ThresholdPublicKey :=
  {| threshold := 2;
     members := [pubkey3; pubkey1; pubkey4; pubkey2; pubkey0] |}.

Definition serialize (data : MultisigSignatureData) : bytes :=
  ((λ b : bool, if b then Byte.x01 else Byte.x00) <$> bit_array data)
    ++ concat (signatures data).

Definition aggregate :=
  Multisig.aggregate pubkeyToAddress "cosmos".

(** Members 1 and 4 sign; member 1 is at position 1 of the canonical
    order and member 4 at position 2. *)
Definition two_signed : MultisigSignatureData :=
  {| bit_array := [false; true; true; false; false];
     signatures := [[Byte.x11]; [Byte.x14]] |}.

End MultisigSample.

(** ** Further concrete settings

    A writable client on the scripted node, a signer that refuses, and a
    scripted node for the queries. *)

Module ExtraSample.
Import Sample.

#[local] Existing Instance Sample.imports.

(** A signer that refuses every request. *)
Definition refusing : SigningCallback := λ _ _, Throw "Request rejected".

Definition alice_signing : SigningData :=
  {| sd_senderAddress := alice; sd_signCallback := signer |}.

Definition alice_refusing : SigningData :=
  {| sd_senderAddress := alice; sd_signCallback := refusing |}.

Definition stranger_signing : SigningData :=
  {| sd_senderAddress := "cosmos1unknown"; sd_signCallback := signer |}.

Definition alice_client : CosmWasmClient :=
  makeWritable "http://node" alice signer None.

Definition refusing_client : CosmWasmClient :=
  makeWritable "http://node" alice refusing None.

Definition stranger_client : CosmWasmClient :=
  makeWritable "http://node" "cosmos1unknown" signer None.

Definition testing : NodeInfoResponse :=
  {| node_info := {| network := "testing" |} |}.

(** The answers [alice_client] meets on [Sample.node] when it signs a
    message under the memo ["rent"] with a fee of the given gas. *)
Definition script_of (gas : string) : Script :=
  {| on_account := {| result := {| value := alice_account |} |};
     on_info := testing;
     on_sign := String.list_byte_of_string ("testing/rent/" +:+ gas);
     on_post := accepted |}.

End ExtraSample.

Module QuerySample.

#[local] Existing Instance Sample.imports.

(** A stand-in for the digest: the first 32 bytes of the padded input. *)
Definition digest (data : bytes) : bytes :=
  take 32 (data ++ replicate 32 Byte.x00).

Definition tx_a : TxsResponse string := {| txs_txhash := "AA"; txs_body := "a" |}.
Definition tx_b : TxsResponse string := {| txs_txhash := "BB"; txs_body := "b" |}.
Definition tx_c : TxsResponse string := {| txs_txhash := "CC"; txs_body := "c" |}.

(** The node encodes a transaction as its text, knows the transactions
    [tx_a], [tx_b] sent by ["alice"] and [tx_b], [tx_c] received by her,
    and has one contract. *)
Definition node : @QueryNetwork Sample.imports string Z string string string := {|
  net_encodeTx := λ _ _ tx, Fulfilled (String.list_byte_of_string tx);
  net_blocks := λ _ _ height, Fulfilled height;
  net_blocksLatest := λ _ _, Fulfilled 100;
  net_txs := λ _ _ query,
    if decide (query = "message.sender=alice&limit=75") then
      Fulfilled {| txs := [tx_a; tx_b] |}
    else if decide (query = "transfer.recipient=alice&limit=75") then
      Fulfilled {| txs := [tx_b; tx_c] |}
    else Fulfilled {| txs := [] |};
  net_getContractInfo := λ _ _ addr,
    if decide (addr = "cosmos1contract") then Fulfilled "info"
    else Rejected (ThrownError "not found: contract");
  net_queryContractRaw := λ _ _ _ key,
    Fulfilled (if decide (key = []) then None else Some key);
  net_queryContractSmart := λ _ _ addr queryMsg,
    if decide (addr = "cosmos1contract") then
      Fulfilled (String.list_byte_of_string queryMsg)
    else Rejected (ThrownError "not found: contract");
|}.

Definition client : CosmWasmClient := makeReadOnly "http://node".

Definition by_address (who : string) : SearchTxQuery :=
  {| query_id := None; query_height := None; query_sentFromOrTo := Some who |}.

End QuerySample.

(** * Properties of the client *)

Section ClientFacts.
Context `{imports : Imports}.
Variable net : Network.




(** The hashes accepted by [postTx]: non-empty, of even length, every
    character one of [0-9A-F]. *)
Lemma hex_pairs_spec (s : string) :
  hex_pairs s = true ↔
    Nat.even (String.length s) = true
    ∧ forallb is_upper_hex (String.list_ascii_of_string s) = true.
Proof.
  assert (∀ n s, (String.length s ≤ n)%nat →
            hex_pairs s = true ↔
              Nat.even (String.length s) = true
              ∧ forallb is_upper_hex (String.list_ascii_of_string s) = true) as Hn.
  { clear s. induction n as [|n IH]; intros [|a [|b s]] Hlen;
      simpl in *; try lia; try naive_solver.
    rewrite !andb_true_iff, IH by lia. naive_solver. }
  by apply (Hn (String.length s)).
Qed.

Lemma txhash_matches_spec (s : string) :
  txhash_matches s = true ↔
    s ≠ "" ∧ Nat.even (String.length s) = true
    ∧ forallb is_upper_hex (String.list_ascii_of_string s) = true.
Proof.
  destruct s as [|a s]; [naive_solver|].
  unfold txhash_matches. rewrite hex_pairs_spec. naive_solver.
Qed.

Lemma address_or_sender_given (c : CosmWasmClient) (a : string) :
  a ≠ "" → address_or_sender c (Some a) = Ok a.
Proof. by destruct a. Qed.

Lemma address_or_sender_unset (c : CosmWasmClient) :
  address_or_sender c None = senderAddress c
  ∧ address_or_sender c (Some "") = senderAddress c.
Proof. done. Qed.

(** The run of [postTx], by cases on the answer of the node. *)
Lemma postTx_run (c : CosmWasmClient) (tx : bytes) (h : History) :
  postTx net c tx h =
  let h' := h ++ [CallPostTx (rest_url (restClient c)) tx] in
  match net_postTx net h (rest_url (restClient c)) tx with
  | Throw e => (Throw e, h')
  | Ok res =>
      if truthy_number (code res) then
        (Throw (posting_error (code res) (raw_log res)), h')
      else if txhash_matches (txhash res) then
        match parseLogs (logs res) with
        | Ok parsed =>
            (Ok {| res_logs := default [] parsed;
                   rawLog := string_or (raw_log res) "";
                   transactionHash := txhash res |}, h')
        | Throw e => (Throw e, h')
        end
      else (Throw bad_txhash, h')
  end.
Proof.
  unfold postTx, bind, rest_postTx, request, lift, throw, ret; simpl.
  destruct (net_postTx _ _ _ _) as [res|e]; [|done].
  destruct (truthy_number _); [done|].
  destruct (txhash_matches _); simpl; [|done].
  by destruct (parseLogs _).
Qed.



(** The run of [getAccount] once the address to query is known. *)
Lemma getAccount_run (c : CosmWasmClient) (addr : option string)
    (a : string) (h : History) :
  address_or_sender c addr = Ok a →
  getAccount net c addr h =
  let h' := h ++ [CallAuthAccounts (rest_url (restClient c)) a] in
  match net_authAccounts net h (rest_url (restClient c)) a with
  | Throw e => (Throw e, h')
  | Ok resp =>
      (Ok (if decide (address (value (result resp)) = "") then None
           else Some (value (result resp))), h')
  end.
Proof.
  intros Ha. unfold getAccount, bind, lift, rest_authAccounts, request, ret.
  rewrite Ha; simpl. by destruct (net_authAccounts _ _ _ _).
Qed.

(** C3: for an address whose account the node does not know (the answer
    has the empty [address]), [getNonce] throws and returns nothing; for
    an address whose account exists, it returns exactly the
    [account_number] and [sequence] of that account. *)
Theorem getNonce_found_or_fails (c : CosmWasmClient) (a : string)
    (h : History) (resp : AuthAccountsResponse) :
  a ≠ "" →
  net_authAccounts net h (rest_url (restClient c)) a = Ok resp →
  let acc := value (result resp) in
  let h' := h ++ [CallAuthAccounts (rest_url (restClient c)) a] in
  (address acc = "" →
     getNonce net c (Some a) h = (Throw account_missing, h'))
  ∧ (address acc ≠ "" →
     getNonce net c (Some a) h =
       (Ok {| accountNumber := account_number acc;
              nonce_sequence := sequence acc |}, h')).
Proof.
  intros Ha Hnet acc h'. unfold getNonce, bind.
  rewrite (getAccount_run c (Some a) a h (address_or_sender_given c a Ha)).
  rewrite Hnet; simpl. fold acc h'.
  split; intros Hacc; by destruct (decide (address acc = "")).
Qed.

End ClientFacts.

(** ** What an operation sends *)

Section Operations.
Context `{imports : Imports}.
Variable net : Network.

Section Rules.
Context (P : History → Prop) `{!Compositional P}.

Lemma emits_ret {A} (a : A) : emits P (ret a).
Proof. intros h. exists []. by rewrite app_nil_r; split; [|apply holds_nil]. Qed.

Lemma emits_throw {A} (e : Error) : emits P (throw (A:=A) e).
Proof. intros h. exists []. by rewrite app_nil_r; split; [|apply holds_nil]. Qed.

Lemma emits_lift {A} (r : Result A) : emits P (lift r).
Proof. intros h. exists []. by rewrite app_nil_r; split; [|apply holds_nil]. Qed.

Lemma emits_request {A} (c : Call) (answer : History → Result A) :
  P [c] → emits P (request c answer).
Proof. intros Hc h. by exists [c]. Qed.

Lemma emits_bind {A B} (m : Async A) (k : A → Async B) :
  emits P m → (∀ a, emits P (k a)) → emits P (bind m k).
Proof.
  intros Hm Hk h. unfold bind.
  destruct (Hm h) as (new1 & E1 & HP1).
  destruct (m h) as [[a|e] h1]; simpl in E1; subst h1.
  - destruct (Hk a (h ++ new1)) as (new2 & E2 & HP2).
    exists (new1 ++ new2). rewrite E2, app_assoc.
    split; [done|by apply holds_app].
  - by exists new1.
Qed.
End Rules.

Ltac emits_steps :=
  repeat first
    [ apply emits_ret | apply emits_throw | apply emits_lift
    | apply emits_bind; [idtac .. | intros ?]
    | apply emits_request
    | exact _
    | match goal with
      | |- emits _ (match ?x with _ => _ end) => destruct x
      end ].

Lemma getNonce_emits (P : History → Prop) `{!Compositional P}
    (c : CosmWasmClient) (addr : option string) :
  (∀ a, P [CallAuthAccounts (rest_url (restClient c)) a]) →
  emits P (getNonce net c addr).
Proof.
  intros HP. unfold getNonce, getAccount, rest_authAccounts.
  emits_steps; auto.
Qed.

Lemma chainId_emits (P : History → Prop) `{!Compositional P}
    (c : CosmWasmClient) :
  P [CallNodeInfo (rest_url (restClient c))] → emits P (chainId net c).
Proof. intros HP. unfold chainId, rest_nodeInfo. emits_steps; auto. Qed.

Lemma postTx_emits (P : History → Prop) `{!Compositional P}
    (c : CosmWasmClient) (tx : bytes) :
  P [CallPostTx (rest_url (restClient c)) tx] → emits P (postTx net c tx).
Proof. intros HP. unfold postTx, rest_postTx. emits_steps; auto. Qed.

#[export] Instance uses_fee_compositional f : Compositional (uses_fee f).
Proof.
  split.
  - split; [intros b Hin|intros url tx Hin]; by apply elem_of_nil in Hin.
  - intros new1 new2 [Hs1 Hp1] [Hs2 Hp2].
    split; [intros b Hin|intros url tx Hin];
      apply elem_of_app in Hin as [?|?]; eauto.
Qed.

Lemma uses_fee_auth f url a : uses_fee f [CallAuthAccounts url a].
Proof.
  split; [intros b Hin|intros u tx Hin];
    by apply list_elem_of_singleton in Hin.
Qed.

Lemma uses_fee_info f url : uses_fee f [CallNodeInfo url].
Proof.
  split; [intros b Hin|intros u tx Hin];
    by apply list_elem_of_singleton in Hin.
Qed.

Lemma uses_fee_sign f msgs chain memo an sq :
  uses_fee f [CallSign (makeSignBytes msgs f chain memo an sq)].
Proof.
  split; [intros b Hin|intros u tx Hin];
    apply list_elem_of_singleton in Hin; simplify_eq.
  by exists msgs, chain, memo, an, sq.
Qed.

Lemma uses_fee_post f url stx :
  tx_fee stx = f → uses_fee f [CallPostTx url (marshalTx stx)].
Proof.
  intros Hfee.
  split; [intros b Hin|intros u tx Hin];
    apply list_elem_of_singleton in Hin; simplify_eq.
  by exists stx.
Qed.

Ltac operation_uses_fee :=
  emits_steps;
  first [ apply uses_fee_auth | apply uses_fee_info
        | apply uses_fee_sign | by apply uses_fee_post ].

Lemma upload_uses_fee (c : CosmWasmClient) wasmCode memo :
  emits (uses_fee (get_fee (fees c) "upload")) (upload net c wasmCode memo).
Proof. unfold upload, call_sign. operation_uses_fee. Qed.

Lemma instantiate_uses_fee (c : CosmWasmClient) codeId initMsg memo funds :
  emits (uses_fee (get_fee (fees c) "init"))
        (instantiate net c codeId initMsg memo funds).
Proof. unfold instantiate, call_sign. operation_uses_fee. Qed.

Lemma execute_uses_fee (c : CosmWasmClient) addr handleMsg memo funds :
  emits (uses_fee (get_fee (fees c) "exec"))
        (execute net c addr handleMsg memo funds).
Proof. unfold execute, call_sign. operation_uses_fee. Qed.

Lemma sendTokens_uses_fee (c : CosmWasmClient) recipient funds memo :
  emits (uses_fee (get_fee (fees c) "send"))
        (sendTokens net c recipient funds memo).
Proof. unfold sendTokens, call_sign. operation_uses_fee. Qed.

Lemma fees_lookup (url : string) (sd : option SigningData)
    (customFees : FeeObject) (key : string) :
  fees (new_CosmWasmClient url sd customFees) !! key =
    match customFees !! key with
    | Some v => Some v
    | None => defaultFees !! key
    end.
Proof.
  simpl. rewrite lookup_union.
  destruct (customFees !! key); [by destruct (defaultFees !! key)|].
  by rewrite (left_id None _).
Qed.

(** C10: on a client built by [makeReadOnly], [upload], [instantiate],
    [execute], [sendTokens], and [getNonce] and [getAccount] without an
    address, throw "Signing data not set in this client" and leave the
    history of requests as it was: nothing is sent. *)
Theorem read_only_client_cannot_sign (url : string) (h : History) :
  let c := makeReadOnly url in
  let refused {A} : Result A * History :=
    (Throw "Signing data not set in this client", h) in
  (∀ wasmCode memo, upload net c wasmCode memo h = refused)
  ∧ (∀ codeId initMsg memo funds,
       instantiate net c codeId initMsg memo funds h = refused)
  ∧ (∀ addr handleMsg memo funds,
       execute net c addr handleMsg memo funds h = refused)
  ∧ (∀ recipient funds memo,
       sendTokens net c recipient funds memo h = refused)
  ∧ getNonce net c None h = refused
  ∧ getAccount net c None h = refused.
Proof. repeat split. Qed.

End Operations.

(** ** The client on the scripted node *)





Lemma getNonce_found_or_fails_witness :
  getNonce Sample.node (makeReadOnly "http://node")
           (Some Sample.alice) [] =
    (Ok {| accountNumber := 7; nonce_sequence := 42 |},
     [CallAuthAccounts "http://node" Sample.alice])
  ∧ getNonce Sample.node (makeReadOnly "http://node") (Some "cosmos1unknown") [] =
    (Throw account_missing, [CallAuthAccounts "http://node" "cosmos1unknown"]).
Proof.
  split.
  - apply (getNonce_found_or_fails (imports:=Sample.imports) Sample.node
             (makeReadOnly "http://node")
             Sample.alice []
             {| result := {| value := Sample.alice_account |} |});
      [discriminate | reflexivity | discriminate].
  - apply (getNonce_found_or_fails (imports:=Sample.imports) Sample.node
             (makeReadOnly "http://node") "cosmos1unknown" []
             {| result := {| value := Sample.no_account |} |});
      [discriminate | reflexivity | reflexivity].
Defined.

(** A transfer from a writable client without a custom fee table: four
    requests, signed and posted with the default fee. *)
Example sendTokens_on_sample_node :
  sendTokens Sample.node
    (makeWritable "http://node" Sample.alice Sample.signer None)
    "cosmos1recipient" [ {| coin_amount := "1234"; coin_denom := "ucosm" |} ]
    (Some "rent") []
  = (Ok {| res_logs := []; rawLog := "[]"; transactionHash := "0A1B" |},
     [CallAuthAccounts "http://node" Sample.alice;
      CallNodeInfo "http://node";
      CallSign (String.list_byte_of_string "testing/rent/80000");
      CallPostTx "http://node" (String.list_byte_of_string "rent/80000")]).
Proof. vm_compute. reflexivity. Qed.

(** * Properties of the multisignature subsystem *)

Module MultisigFacts.
Import Multisig.

(** ** The canonical order of keys *)

Lemma bytes_leb_refl (a : bytes) : bytes_leb a a = true.
Proof.
  induction a as [|x a IH]; simpl; [done|].
  by rewrite N.ltb_irrefl.
Qed.

Lemma bytes_leb_total (a b : bytes) :
  bytes_leb a b = true ∨ bytes_leb b a = true.
Proof.
  revert b. induction a as [|x a IH]; intros [|y b]; simpl; auto.
  destruct (N.ltb_spec (Byte.to_N x) (Byte.to_N y)); [by left|].
  destruct (N.ltb_spec (Byte.to_N y) (Byte.to_N x)); [by right|].
  apply IH.
Qed.

Lemma bytes_leb_trans (a b c : bytes) :
  bytes_leb a b = true → bytes_leb b c = true → bytes_leb a c = true.
Proof.
  revert b c. induction a as [|x a IH]; intros [|y b] [|z c]; simpl; try done.
  destruct (N.ltb_spec (Byte.to_N x) (Byte.to_N y)),
           (N.ltb_spec (Byte.to_N y) (Byte.to_N x)),
           (N.ltb_spec (Byte.to_N y) (Byte.to_N z)),
           (N.ltb_spec (Byte.to_N z) (Byte.to_N y)),
           (N.ltb_spec (Byte.to_N x) (Byte.to_N z)),
           (N.ltb_spec (Byte.to_N z) (Byte.to_N x));
    try done; try lia.
  apply IH.
Qed.



#[local] Instance key_le_total : Total key_le.
Proof. intros k1 k2. apply bytes_leb_total. Qed.

#[local] Instance key_le_trans : Transitive key_le.
Proof. intros k1 k2 k3. apply bytes_leb_trans. Qed.


Section Facts.
Context {Address : Type} `{EqDecision Address}.
Variable deriveAddress : PublicKey → string → Address.
Variable network_prefix : string.
Variable serialize : MultisigSignatureData → bytes.


Abbreviation SignatureMap := (list (Address * RawSignature)).
Abbreviation address_of m := (deriveAddress (Single m) network_prefix).
Abbreviation aggregate := (Multisig.aggregate deriveAddress network_prefix).

(** *** The mapping *)

Lemma map_get_is_Some (sigs : SignatureMap) (a : Address) :
  is_Some (map_get sigs a) ↔ a ∈ sigs.*1.
Proof.
  induction sigs as [|[a' s] sigs IH]; simpl.
  - rewrite elem_of_nil. split; [intros [? ?]; done|done].
  - rewrite elem_of_cons. destruct (decide (a' = a)) as [->|Hne].
    + split; eauto.
    + rewrite IH. naive_solver.
Qed.

Lemma map_get_Some (sigs : SignatureMap) (a : Address) (s : RawSignature) :
  NoDup sigs.*1 → map_get sigs a = Some s ↔ (a, s) ∈ sigs.
Proof.
  induction sigs as [|[a' s'] sigs IH]; simpl; intros Hnd.
  - by rewrite elem_of_nil.
  - apply NoDup_cons in Hnd as [Hnotin Hnd].
    rewrite elem_of_cons. destruct (decide (a' = a)) as [->|Hne].
    + split; [intros [= ->]; by left|].
      intros [[= ->]|Hin]; [done|].
      destruct Hnotin. apply list_elem_of_fmap. by exists (a, s).
    + rewrite (IH Hnd). naive_solver.
Qed.

Lemma map_get_permutation (sigs sigs' : SignatureMap) (a : Address) :
  NoDup sigs.*1 → sigs ≡ₚ sigs' → map_get sigs a = map_get sigs' a.
Proof.
  intros Hnd Hperm.
  assert (NoDup sigs'.*1) as Hnd' by by rewrite <- Hperm.
  apply option_eq; intros s.
  by rewrite !map_get_Some, Hperm.
Qed.

Lemma map_has_permutation (sigs sigs' : SignatureMap) (a : Address) :
  sigs ≡ₚ sigs' → map_has sigs a = map_has sigs' a.
Proof. intros Hperm. apply bool_decide_ext. by rewrite Hperm. Qed.

Lemma map_has_true (sigs : SignatureMap) (a : Address) :
  map_has sigs a = true ↔ is_Some (map_get sigs a).
Proof.
  unfold map_has. by rewrite bool_decide_eq_true, map_get_is_Some.
Qed.

(** *** Bit array and collected signatures *)

Lemma count_set_bits_cons (b : bool) (bits : list bool) :
  count_set_bits (b :: bits) =
    ((if b then 1 else 0) + count_set_bits bits)%nat.
Proof.
  unfold count_set_bits. rewrite filter_cons. by destruct b.
Qed.

Lemma collected_as_many_as_set (addrs : list Address) (sigs : SignatureMap) :
  count_set_bits (build_bit_array addrs sigs) =
    length (collect_signatures (build_bit_array addrs sigs) addrs sigs).
Proof.
  induction addrs as [|a addrs IH]; [done|].
  unfold build_bit_array in *. rewrite fmap_cons, count_set_bits_cons.
  simpl. destruct (map_has sigs a) eqn:Hhas.
  - apply map_has_true in Hhas as [s ->]. simpl. by rewrite IH.
  - by rewrite IH.
Qed.

(** C5: whenever [aggregate] succeeds, the number of set bits of the
    bit array it returns is the number of signatures it returns. *)
Theorem aggregate_bits_match_signatures
    (key : ThresholdPublicKey) (sigs : SignatureMap)
    (data : MultisigSignatureData) :
  aggregate key sigs = Success data →
  count_set_bits (bit_array data) = length (signatures data).
Proof.
  unfold Multisig.aggregate. intros Hagg.
  destruct (has_unknown_signer _ _); [done|].
  destruct (decide _); [done|].
  injection Hagg as <-. simpl. apply collected_as_many_as_set.
Qed.

(** *** Positions of the set bits *)

Lemma set_positions_from_elem (off i : nat) (bits : list bool) :
  i ∈ set_positions_from off bits ↔
    (off ≤ i)%nat ∧ bits !! (i - off)%nat = Some true.
Proof.
  revert off. induction bits as [|b bits IH]; intros off; simpl.
  - rewrite elem_of_nil. naive_solver.
  - assert (i ∈ set_positions_from (S off) bits ↔
            (off < i)%nat ∧ (b :: bits) !! (i - off)%nat = Some true) as Htl.
    { rewrite IH. split; intros [Hle Hbit]; (split; [lia|]).
      - by replace (i - off)%nat with (S (i - S off)) by lia.
      - by replace (i - off)%nat with (S (i - S off)) in Hbit by lia. }
    destruct b; [rewrite elem_of_cons|]; rewrite Htl.
    + split.
      * intros [->|[? ?]]; [by rewrite Nat.sub_diag|split; [lia|done]].
      * intros [Hle Hbit]. destruct (decide (i = off)); [by left|].
        right. split; [lia|done].
    + split; intros [Hle Hbit]; (split; [lia|done])
        || (split; [|done]; destruct (decide (i = off)) as [->|]; [|lia];
            by rewrite Nat.sub_diag in Hbit).
Qed.

Lemma set_positions_from_sorted (off : nat) (bits : list bool) :
  StronglySorted lt (set_positions_from off bits).
Proof.
  revert off. induction bits as [|b bits IH]; intros off; simpl.
  - constructor.
  - destruct b; [|done]. constructor; [done|].
    apply Forall_forall. intros i Hi.
    apply set_positions_from_elem in Hi. lia.
Qed.

Lemma collected_at_set_positions (off : nat) (addrs : list Address)
    (sigs : SignatureMap) :
  Forall2 (placed addrs sigs off)
    (set_positions_from off (build_bit_array addrs sigs))
    (collect_signatures (build_bit_array addrs sigs) addrs sigs).
Proof.
  revert off. induction addrs as [|a addrs IH]; intros off; [constructor|].
  assert (Forall2 (placed (a :: addrs) sigs off)
            (set_positions_from (S off) (build_bit_array addrs sigs))
            (collect_signatures (build_bit_array addrs sigs) addrs sigs))
    as Htl.
  { eapply Forall2_impl; [apply (IH (S off))|].
    intros i s (Hle & a' & raw & Ha' & Hget & ->).
    split; [lia|]. exists a', raw.
    by replace (i - off)%nat with (S (i - S off)) by lia. }
  unfold build_bit_array in *. rewrite fmap_cons. simpl.
  destruct (map_has sigs a) eqn:Hhas; [|done].
  apply map_has_true in Hhas as [raw Hraw]. rewrite Hraw.
  constructor; [|done].
  split; [done|]. exists a, raw. by rewrite Nat.sub_diag.
Qed.

(** *** Order of insertion *)

Lemma aggregate_permutation (key : ThresholdPublicKey)
    (sigs sigs' : SignatureMap) :
  NoDup sigs.*1 → sigs ≡ₚ sigs' → aggregate key sigs = aggregate key sigs'.
Proof.
  intros Hnd Hperm. unfold Multisig.aggregate.
  set (addrs := member_addresses deriveAddress network_prefix key).
  assert (build_bit_array addrs sigs = build_bit_array addrs sigs') as <-.
  { apply list_fmap_ext. intros _ a _. by apply map_has_permutation. }
  assert (has_unknown_signer addrs sigs = has_unknown_signer addrs sigs')
    as <-.
  { apply bool_decide_ext. by rewrite Hperm. }
  assert (∀ bits, collect_signatures bits addrs sigs
                  = collect_signatures bits addrs sigs') as <-; [|done].
  intros bits. revert bits.
  induction addrs as [|a addrs' IH]; intros [|b bits]; simpl; try done.
  by rewrite IH, (map_get_permutation sigs sigs' a Hnd Hperm).
Qed.

(** C4: the signatures returned by [aggregate] are listed by ascending
    member index: they are, one for one, the signatures the mapping
    holds for the members at the set positions of the bit array, taken
    in increasing order of position; and the result is the same for
    every order in which the entries were put into the mapping. *)
Theorem aggregate_signatures_in_member_order
    (key : ThresholdPublicKey) (sigs sigs' : SignatureMap)
    (data : MultisigSignatureData) :
  NoDup sigs.*1 → sigs ≡ₚ sigs' →
  aggregate key sigs = Success data →
  aggregate key sigs' = Success data
  ∧ ∃ positions : list nat,
      StronglySorted lt positions
      ∧ (∀ i, i ∈ positions ↔ bit_array data !! i = Some true)
      ∧ Forall2 (λ i s, ∃ m raw,
                   members key !! i = Some m
                   ∧ map_get sigs (address_of m) = Some raw
                   ∧ s = signature_bytes raw)
                positions (signatures data).
Proof.
  intros Hnd Hperm Hagg.
  split; [by rewrite <- (aggregate_permutation key sigs sigs')|].
  unfold Multisig.aggregate in Hagg.
  destruct (has_unknown_signer _ _); [done|].
  destruct (decide _); [done|].
  injection Hagg as <-. simpl.
  exists (set_positions (build_bit_array (member_addresses deriveAddress network_prefix key) sigs)).
  split; [apply set_positions_from_sorted|]. split.
  - intros i. unfold set_positions. rewrite set_positions_from_elem.
    rewrite Nat.sub_0_r. split; [by intros [_ ?]|split; [lia|done]].
  - eapply Forall2_impl; [apply (collected_at_set_positions 0)|].
    intros i s (_ & a & raw & Ha & Hget & ->).
    rewrite Nat.sub_0_r in Ha. unfold member_addresses in Ha.
    rewrite list_lookup_fmap in Ha.
    destruct (members key !! i) as [m|] eqn:Hm; [|done].
    injection Ha as <-. by exists m, raw.
Qed.

(** *** No local threshold check *)

Lemma known_signers_accepted (addrs : list Address) (sigs : SignatureMap) :
  (∀ a, a ∈ sigs.*1 → a ∈ addrs) → has_unknown_signer addrs sigs = false.
Proof.
  intros Hknown. apply bool_decide_eq_false. rewrite Exists_exists.
  intros (a & Ha & Hnot). by apply Hnot, Hknown.
Qed.

Lemma signed_member_sets_a_bit (addrs : list Address) (sigs : SignatureMap)
    (a : Address) :
  a ∈ addrs → a ∈ sigs.*1 →
  count_set_bits (build_bit_array addrs sigs) ≠ 0%nat.
Proof.
  intros Haddr Hsig Hcount. unfold count_set_bits in Hcount.
  apply length_zero_iff_nil in Hcount.
  assert (true ∈ filter (λ b, b = true) (build_bit_array addrs sigs)) as Hin.
  { apply list_elem_of_filter. split; [done|].
    apply list_elem_of_fmap. exists a. split; [|done].
    symmetry. by apply bool_decide_eq_true. }
  rewrite Hcount in Hin. by apply elem_of_nil in Hin.
Qed.

Lemma count_set_bits_filter (addrs : list Address) (sigs : SignatureMap) :
  count_set_bits (build_bit_array addrs sigs) =
    length (filter (λ a, a ∈ sigs.*1) addrs).
Proof.
  induction addrs as [|a addrs IH]; [done|].
  unfold build_bit_array in *.
  rewrite fmap_cons, count_set_bits_cons, filter_cons, IH.
  unfold map_has. by case_bool_decide; case_decide.
Qed.

Lemma one_bit_per_signer (addrs : list Address) (sigs : SignatureMap) :
  (∀ a, a ∈ sigs.*1 → a ∈ addrs) → NoDup addrs → NoDup sigs.*1 →
  count_set_bits (build_bit_array addrs sigs) = length sigs.
Proof.
  intros Hknown Hnd_addrs Hnd_sigs.
  rewrite count_set_bits_filter, <- (length_fmap fst sigs).
  apply Permutation_length, NoDup_Permutation;
    [by apply NoDup_filter|done|].
  intros a. rewrite list_elem_of_filter. naive_solver.
Qed.

(** C8: [aggregate] succeeds on every non-empty mapping whose addresses
    all belong to members of the key, whatever the threshold of the key
    is, and so does [finalizeMultisigTx]; with distinct member
    addresses the bit array has as many set bits as the mapping has
    entries, fewer than the threshold or not. *)
Theorem aggregate_has_no_threshold_check
    (key : ThresholdPublicKey) (sigs : SignatureMap) :
  sigs ≠ [] →
  (∀ a, a ∈ sigs.*1 → a ∈ member_addresses deriveAddress network_prefix key) →
  ∃ data,
    aggregate key sigs = Success data
    ∧ (∀ seq f body,
         finalizeMultisigTx deriveAddress network_prefix serialize
                            key seq f body sigs
         = Success {| body_bytes := body; fee := f;
                      signer_infos := [(Threshold key, seq)];
                      env_signatures := [serialize data] |})
    ∧ (NoDup (member_addresses deriveAddress network_prefix key) →
       NoDup sigs.*1 →
       count_set_bits (bit_array data) = length sigs).
Proof.
  intros Hne Hknown.
  set (addrs := member_addresses deriveAddress network_prefix key) in *.
  assert (aggregate key sigs =
            Success {| bit_array := build_bit_array addrs sigs;
                       signatures :=
                         collect_signatures (build_bit_array addrs sigs)
                                            addrs sigs |}) as Hagg.
  { unfold Multisig.aggregate. fold addrs.
    rewrite (known_signers_accepted addrs sigs Hknown).
    destruct sigs as [|[a s] sigs]; [done|].
    assert (a ∈ ((a, s) :: sigs).*1) as Hin by (simpl; left).
    rewrite decide_False; [done|].
    by apply (signed_member_sets_a_bit addrs _ a); [apply Hknown|]. }
  eexists. split; [exact Hagg|]. split.
  - intros seq f body. unfold finalizeMultisigTx. by rewrite Hagg.
  - intros Hnd_addrs Hnd_sigs. simpl. by apply one_bit_per_signer.
Qed.

End Facts.
End MultisigFacts.

(** ** The multisignature subsystem on the five sample keys *)

Module MultisigRuns.
Import Multisig MultisigSample MultisigFacts.

Example createThresholdPublicKey_sample :
  createThresholdPublicKey [pubkey0; pubkey1; pubkey2; pubkey3; pubkey4] 2
  = Success multisigPubkey.
Proof. vm_compute. reflexivity. Qed.



Example aggregate_two_of_five :
  aggregate multisigPubkey
    [(address_of pubkey4, signature4); (address_of pubkey1, signature1)]
  = Success two_signed.
Proof. vm_compute. reflexivity. Qed.

Lemma aggregate_signatures_in_member_order_witness :
  aggregate multisigPubkey
    [(address_of pubkey1, signature1); (address_of pubkey4, signature4)]
  = Success two_signed.
Proof.
  apply (aggregate_signatures_in_member_order pubkeyToAddress "cosmos"
           multisigPubkey
           [(address_of pubkey4, signature4); (address_of pubkey1, signature1)]
           [(address_of pubkey1, signature1); (address_of pubkey4, signature4)]
           two_signed).
  - apply (bool_decide_unpack _). vm_compute. exact I.
  - apply perm_swap.
  - vm_compute. reflexivity.
Defined.

Lemma aggregate_bits_match_signatures_witness :
  count_set_bits (bit_array two_signed) = length (signatures two_signed).
Proof.
  apply (aggregate_bits_match_signatures pubkeyToAddress "cosmos"
           multisigPubkey
           [(address_of pubkey4, signature4); (address_of pubkey1, signature1)]
           two_signed).
  vm_compute. reflexivity.
Defined.

(** One signature under the threshold of two. *)
Lemma aggregate_has_no_threshold_check_witness :
  threshold multisigPubkey = 2%N
  ∧ ∃ data,
      aggregate multisigPubkey [(address_of pubkey2, signature2)]
      = Success data
      ∧ count_set_bits (bit_array data) = 1%nat.
Proof.
  split; [reflexivity|].
  destruct (aggregate_has_no_threshold_check pubkeyToAddress "cosmos"
              serialize multisigPubkey [(address_of pubkey2, signature2)])
    as (data & Hagg & _ & Hcount).
  - discriminate.
  - intros a Ha. apply list_elem_of_singleton in Ha. subst a.
    apply (bool_decide_unpack _). vm_compute. exact I.
  - exists data. split; [exact Hagg|].
    apply Hcount; apply (bool_decide_unpack _); vm_compute; exact I.
Defined.

Example aggregate_one_of_five :
  aggregate multisigPubkey [(address_of pubkey2, signature2)]
  = Success {| bit_array := [false; false; false; true; false];
               signatures := [[Byte.x12]] |}.
Proof. vm_compute. reflexivity. Qed.

Example aggregate_unknown_signer :
  aggregate multisigPubkey
    [(address_of pubkey2, signature2);
     (address_of (key_of Byte.x02 Byte.x00), signature0)]
  = Failure UnknownSignerError.
Proof. vm_compute. reflexivity. Qed.

Example aggregate_no_signatures :
  aggregate multisigPubkey [] = Failure NoSignaturesError.
Proof. vm_compute. reflexivity. Qed.

End MultisigRuns.

(** * Further properties of the client *)

Section Posting.
Context `{imports : Imports}.
Variable net : Network.

Lemma postTx_by_outcome (c : CosmWasmClient) (tx : bytes) (h : History) :
  postTx net c tx h =
    (match net_postTx net h (rest_url (restClient c)) tx with
     | Ok res => postTx_outcome res
     | Throw e => Throw e
     end,
     h ++ [CallPostTx (rest_url (restClient c)) tx]).
Proof.
  rewrite postTx_run. unfold postTx_outcome. simpl.
  destruct (net_postTx _ _ _ _) as [res|e]; [|done].
  destruct (truthy_number _); [done|].
  destruct (txhash_matches _); simpl; [|done].
  by destruct (parseLogs _).
Qed.

(** X1: whatever the node answers, and whether [postTx] returns or
    throws, it sends the transaction exactly once and nothing else. *)
Theorem postTx_sends_once (c : CosmWasmClient) (tx : bytes) (h : History) :
  (postTx net c tx h).2 = h ++ [CallPostTx (rest_url (restClient c)) tx].
Proof. by rewrite postTx_by_outcome. Qed.

(** X2: the [transactionHash] of a result of [postTx] is the [txhash] the
    node answered, and it is non-empty upper-case hex: not the empty
    string, of even length, every character one of [0-9A-F]. *)
Theorem postTx_hash_is_upper_hex (c : CosmWasmClient) (tx : bytes)
    (h : History) (r : PostTxResult) :
  (postTx net c tx h).1 = Ok r →
  (∃ res, net_postTx net h (rest_url (restClient c)) tx = Ok res
          ∧ transactionHash r = txhash res)
  ∧ transactionHash r ≠ ""
  ∧ Nat.even (String.length (transactionHash r)) = true
  ∧ forallb is_upper_hex (String.list_ascii_of_string (transactionHash r))
    = true.
Proof.
  rewrite postTx_by_outcome. simpl. unfold postTx_outcome.
  destruct (net_postTx _ _ _ _) as [res|e]; [|done].
  destruct (truthy_number _); [done|].
  destruct (txhash_matches (txhash res)) eqn:Hhash; simpl; [|done].
  destruct (parseLogs _) as [parsed|e]; [|done].
  intros [= <-]. simpl. split; [by exists res|].
  by apply txhash_matches_spec.
Qed.


End Posting.

Section Accounts.
Context `{imports : Imports}.
Variable net : Network.

Lemma address_or_sender_cases (c : CosmWasmClient) (addr : option string) :
  (address_or_sender c addr = Throw no_signing_data ∧ signingData c = None)
  ∨ ∃ a, address_or_sender c addr = Ok a.
Proof.
  unfold address_or_sender, senderAddress.
  destruct addr as [[|x a]|], (signingData c); eauto.
Qed.

(** The run of [getNonce] once the address to query is known. *)
Lemma getNonce_run (c : CosmWasmClient) (addr : option string) (a : string)
    (h : History) :
  address_or_sender c addr = Ok a →
  getNonce net c addr h =
    (match net_authAccounts net h (rest_url (restClient c)) a with
     | Throw e => Throw e
     | Ok resp =>
         if decide (address (value (result resp)) = "") then
           Throw account_missing
         else Ok {| accountNumber := account_number (value (result resp));
                    nonce_sequence := sequence (value (result resp)) |}
     end,
     h ++ [CallAuthAccounts (rest_url (restClient c)) a]).
Proof.
  intros Ha. unfold getNonce, bind. rewrite (getAccount_run net c addr a h Ha).
  simpl. destruct (net_authAccounts _ _ _ _) as [resp|e]; [|done].
  by destruct (decide _).
Qed.

Lemma getNonce_without_signer (c : CosmWasmClient) (addr : option string)
    (h : History) :
  address_or_sender c addr = Throw no_signing_data →
  getNonce net c addr h = (Throw no_signing_data, h).
Proof.
  intros Ha. unfold getNonce, getAccount, bind, lift. by rewrite Ha.
Qed.

(** X4: an account returned by [getAccount] is the one the node answered
    for the queried address, and its [address] is never empty; the empty
    address is how the node says that there is no such account. *)
Theorem getAccount_returns_existing_account (c : CosmWasmClient)
    (addr : option string) (h h' : History) (acc : CosmosSdkAccount) :
  getAccount net c addr h = (Ok (Some acc), h') →
  address acc ≠ ""
  ∧ ∃ a resp,
      address_or_sender c addr = Ok a
      ∧ net_authAccounts net h (rest_url (restClient c)) a = Ok resp
      ∧ acc = value (result resp)
      ∧ h' = h ++ [CallAuthAccounts (rest_url (restClient c)) a].
Proof.
  destruct (address_or_sender_cases c addr) as [[Ha _]|[a Ha]].
  { unfold getAccount, bind, lift. by rewrite Ha. }
  rewrite (getAccount_run net c addr a h Ha). simpl.
  destruct (net_authAccounts _ _ _ _) as [resp|e] eqn:Hnet; [|done].
  destruct (decide _) as [|Hne]; [done|].
  intros [= <- <-]. split; [done|]. by exists a, resp.
Qed.

(** X5: on a client with signing data, [getNonce] and [getAccount] without
    an address are the calls with the sender address; and on every client
    the empty string counts as no address. *)
Theorem unset_address_means_sender (c : CosmWasmClient) (sd : SigningData)
    (h : History) :
  signingData c = Some sd →
  getNonce net c None h = getNonce net c (Some (sd_senderAddress sd)) h
  ∧ getAccount net c None h = getAccount net c (Some (sd_senderAddress sd)) h
  ∧ getNonce net c (Some "") h = getNonce net c None h
  ∧ getAccount net c (Some "") h = getAccount net c None h.
Proof.
  intros Hsd.
  assert (address_or_sender c (Some (sd_senderAddress sd))
          = address_or_sender c None) as Hsame.
  { unfold address_or_sender, senderAddress. rewrite Hsd.
    by destruct (sd_senderAddress sd). }
  unfold getNonce, getAccount, bind, lift. rewrite Hsame. done.
Qed.

(** X6: [getNonce] sends at most one request.  It sends none exactly when
    it needs the sender address and the client has no signing data; else
    it asks once for the account, and it throws the error of the
    transport, throws that the account does not exist, or returns the
    numbers of the account. *)
Theorem getNonce_one_request (c : CosmWasmClient) (addr : option string)
    (h : History) :
  (getNonce net c addr h = (Throw no_signing_data, h)
   ∧ signingData c = None ∧ truthy_string addr = false)
  ∨ ∃ a, address_or_sender c addr = Ok a
      ∧ (getNonce net c addr h).2
        = h ++ [CallAuthAccounts (rest_url (restClient c)) a]
      ∧ ((∃ e, net_authAccounts net h (rest_url (restClient c)) a = Throw e
               ∧ (getNonce net c addr h).1 = Throw e)
         ∨ ∃ resp, net_authAccounts net h (rest_url (restClient c)) a = Ok resp
             ∧ ((address (value (result resp)) = ""
                 ∧ (getNonce net c addr h).1 = Throw account_missing)
                ∨ (address (value (result resp)) ≠ ""
                   ∧ (getNonce net c addr h).1 =
                       Ok {| accountNumber :=
                               account_number (value (result resp));
                             nonce_sequence :=
                               sequence (value (result resp)) |}))).
Proof.
  destruct (address_or_sender_cases c addr) as [[Ha Hsd]|[a Ha]].
  - left. split; [by apply getNonce_without_signer|]. split; [done|].
    unfold address_or_sender in Ha. by destruct addr as [[|x a]|].
  - right. exists a. rewrite (getNonce_run c addr a h Ha). simpl.
    split; [done|]. split; [done|].
    destruct (net_authAccounts _ _ _ _) as [resp|e] eqn:Hnet;
      [right|left; eauto].
    exists resp. split; [done|]. destruct (decide _); eauto.
Qed.

End Accounts.

Section CourseFacts.
Context `{imports : Imports}.
Variable net : Network.

Lemma bind_Ok {A B} (m : Async A) (k : A → Async B) h a h' :
  m h = (Ok a, h') → bind m k h = k a h'.
Proof. intros Hm. unfold bind. by rewrite Hm. Qed.

Lemma bind_Throw {A B} (m : Async A) (k : A → Async B) h e h' :
  m h = (Throw e, h') → bind m k h = (Throw e, h').
Proof. intros Hm. unfold bind. by rewrite Hm. Qed.

(** Each operation is its message, the common course, and what it reads
    from the result. *)
Lemma upload_course (c : CosmWasmClient) wasmCode memo h :
  upload net c wasmCode memo h =
    bind (lift (senderAddress c))
      (λ sender,
         bind (sign_and_post net c
                 (MsgStoreCode {| store_sender := sender;
                                  wasm_byte_code := toBase64 wasmCode;
                                  source := ""; builder := "" |})
                 (get_fee (fees c) "upload") (default "" memo))
           (λ res,
              bind (lift (findAttribute (res_logs res) "message" "code_id"))
                (λ codeIdAttr, ret (parseInt (attr_value codeIdAttr))))) h.
Proof.
  unfold upload, sign_and_post, bind, lift.
  repeat case_match; simplify_eq; done.
Qed.

Lemma instantiate_course (c : CosmWasmClient) codeId initMsg memo funds h :
  instantiate net c codeId initMsg memo funds h =
    bind (lift (senderAddress c))
      (λ sender,
         bind (sign_and_post net c
                 (MsgInstantiateContract
                    {| init_sender := sender;
                       code_id := number_toString codeId;
                       init_msg := initMsg;
                       init_funds := default [] funds |})
                 (get_fee (fees c) "init") (default "" memo))
           (λ res,
              bind (lift (findAttribute (res_logs res) "message"
                                        "contract_address"))
                (λ contractAddressAttr,
                   ret (attr_value contractAddressAttr)))) h.
Proof.
  unfold instantiate, sign_and_post, bind, lift.
  repeat case_match; simplify_eq; done.
Qed.

Lemma execute_course (c : CosmWasmClient) contractAddress handleMsg memo
    funds h :
  execute net c contractAddress handleMsg memo funds h =
    bind (lift (senderAddress c))
      (λ sender,
         bind (sign_and_post net c
                 (MsgExecuteContract
                    {| exec_sender := sender;
                       contract := contractAddress;
                       msg := handleMsg;
                       sent_funds := default [] funds |})
                 (get_fee (fees c) "exec") (default "" memo))
           (λ res, ret {| exec_logs := res_logs res |})) h.
Proof.
  unfold execute, sign_and_post, bind, lift.
  repeat case_match; simplify_eq; done.
Qed.

Lemma sendTokens_course (c : CosmWasmClient) recipient funds memo h :
  sendTokens net c recipient funds memo h =
    bind (lift (senderAddress c))
      (λ sender,
         sign_and_post net c
           (MsgSend {| from_address := sender; to_address := recipient;
                       amount := funds |})
           (get_fee (fees c) "send") (default "" memo)) h.
Proof. reflexivity. Qed.

Lemma chainId_run (c : CosmWasmClient) (h : History) :
  chainId net c h =
    (match net_nodeInfo net h (rest_url (restClient c)) with
     | Ok info => Ok (network (node_info info))
     | Throw e => Throw e
     end,
     h ++ [CallNodeInfo (rest_url (restClient c))]).
Proof.
  unfold chainId, bind, rest_nodeInfo, request, ret.
  by destruct (net_nodeInfo _ _ _).
Qed.

Lemma sender_of_signing_data (c : CosmWasmClient) (sd : SigningData) :
  signingData c = Some sd →
  senderAddress c = Ok (sd_senderAddress sd)
  ∧ signCallback c = Ok (sd_signCallback sd)
  ∧ address_or_sender c None = Ok (sd_senderAddress sd).
Proof. intros Hsd. unfold address_or_sender, senderAddress, signCallback. by rewrite Hsd. Qed.

(** The course stops at the first request when the node does not know the
    sender. *)
Lemma sign_and_post_unknown_sender (c : CosmWasmClient) (sd : SigningData)
    (h : History) m f memo (resp : AuthAccountsResponse) :
  signingData c = Some sd →
  net_authAccounts net h (rest_url (restClient c)) (sd_senderAddress sd)
    = Ok resp →
  address (value (result resp)) = "" →
  sign_and_post net c m f memo h =
    (Throw account_missing,
     h ++ [CallAuthAccounts (rest_url (restClient c)) (sd_senderAddress sd)]).
Proof.
  intros Hsd Hnet Hacc.
  destruct (sender_of_signing_data c sd Hsd) as (_ & _ & Haddr).
  unfold sign_and_post. apply bind_Throw.
  rewrite (getNonce_run net c None _ h Haddr), Hnet.
  by rewrite decide_True.
Qed.

(** The course stops before posting when the signer throws. *)
Lemma sign_and_post_refused (c : CosmWasmClient) (sd : SigningData)
    (h : History) m f memo (resp : AuthAccountsResponse)
    (info : NodeInfoResponse) (e : Error) :
  let url := rest_url (restClient c) in
  let sender := sd_senderAddress sd in
  let signBytes :=
    makeSignBytes [m] f (network (node_info info)) memo
                  (account_number (value (result resp)))
                  (sequence (value (result resp))) in
  signingData c = Some sd →
  net_authAccounts net h url sender = Ok resp →
  address (value (result resp)) ≠ "" →
  net_nodeInfo net (h ++ [CallAuthAccounts url sender]) url = Ok info →
  sd_signCallback sd (h ++ [CallAuthAccounts url sender; CallNodeInfo url])
                  signBytes = Throw e →
  sign_and_post net c m f memo h =
    (Throw e,
     h ++ [CallAuthAccounts url sender; CallNodeInfo url; CallSign signBytes]).
Proof.
  intros url sender signBytes Hsd Hnet Hacc Hinfo Hsign.
  subst url sender signBytes.
  destruct (sender_of_signing_data c sd Hsd) as (_ & Hcb & Haddr).
  unfold sign_and_post.
  erewrite bind_Ok; cycle 1.
  { rewrite (getNonce_run net c None _ h Haddr), Hnet.
    by rewrite decide_False. }
  erewrite bind_Ok; cycle 1.
  { rewrite chainId_run. by rewrite Hinfo. }
  simpl. rewrite Hcb. unfold bind at 1, lift.
  apply bind_Throw. unfold call_sign, request.
  rewrite <- !app_assoc. simpl. by rewrite Hsign.
Qed.

(** The course of an operation that is answered up to the posting. *)
Lemma sign_and_post_answered (c : CosmWasmClient) (sd : SigningData)
    (h : History) m f memo (s : Script) :
  answered net c sd h m f memo s →
  sign_and_post net c m f memo h =
    (postTx_outcome (on_post s),
     h ++ script_requests (rest_url (restClient c)) (sd_senderAddress sd)
                          s m f memo).
Proof.
  intros (Hsd & Hnet & Hacc & Hinfo & Hsign & Hpost).
  destruct (sender_of_signing_data c sd Hsd) as (_ & Hcb & Haddr).
  unfold sign_and_post.
  erewrite bind_Ok; cycle 1.
  { rewrite (getNonce_run net c None _ h Haddr), Hnet.
    by rewrite decide_False. }
  erewrite bind_Ok; cycle 1.
  { rewrite chainId_run. by rewrite Hinfo. }
  simpl. rewrite Hcb. unfold bind at 1, lift.
  erewrite bind_Ok; cycle 1.
  { unfold call_sign, request. rewrite <- !app_assoc. simpl.
    unfold script_signBytes in Hsign. by rewrite Hsign. }
  rewrite postTx_by_outcome.
  unfold script_requests, requests_before_post, script_tx, script_signBytes
    in *.
  rewrite Hpost. by rewrite <- !app_assoc.
Qed.

Ltac enter_course Hsd :=
  rewrite ?upload_course, ?instantiate_course, ?execute_course,
    ?sendTokens_course;
  unfold bind at 1, lift;
  rewrite (proj1 (sender_of_signing_data _ _ Hsd)).

(** X7: when the node does not know the sender's account, [upload],
    [instantiate], [execute] and [sendTokens] throw that the account does
    not exist after the one account query: the signer is not asked and
    nothing is posted. *)
Theorem unknown_sender_stops_every_operation (c : CosmWasmClient)
    (sd : SigningData) (h : History) (resp : AuthAccountsResponse) :
  signingData c = Some sd →
  net_authAccounts net h (rest_url (restClient c)) (sd_senderAddress sd)
    = Ok resp →
  address (value (result resp)) = "" →
  let stopped {A} : Result A * History :=
    (Throw account_missing,
     h ++ [CallAuthAccounts (rest_url (restClient c)) (sd_senderAddress sd)])
  in
  (∀ wasmCode memo, upload net c wasmCode memo h = stopped)
  ∧ (∀ codeId initMsg memo funds,
       instantiate net c codeId initMsg memo funds h = stopped)
  ∧ (∀ contractAddress handleMsg memo funds,
       execute net c contractAddress handleMsg memo funds h = stopped)
  ∧ (∀ recipient funds memo,
       sendTokens net c recipient funds memo h = stopped).
Proof.
  intros Hsd Hnet Hacc stopped. unfold stopped.
  repeat split; intros; enter_course Hsd;
    first [ by apply (sign_and_post_unknown_sender c sd h _ _ _ resp)
          | apply bind_Throw;
            by apply (sign_and_post_unknown_sender c sd h _ _ _ resp) ].
Qed.

(** X8: when the account exists and the chain id is read, and the signer
    then throws, [upload], [instantiate], [execute] and [sendTokens] throw
    the signer's error; they have sent the account query, the node info
    query and the signing request, and they post nothing. *)
Theorem refusing_signer_posts_nothing (c : CosmWasmClient)
    (sd : SigningData) (h : History) (resp : AuthAccountsResponse)
    (info : NodeInfoResponse) (e : Error) :
  let url := rest_url (restClient c) in
  let sender := sd_senderAddress sd in
  signingData c = Some sd →
  net_authAccounts net h url sender = Ok resp →
  address (value (result resp)) ≠ "" →
  net_nodeInfo net (h ++ [CallAuthAccounts url sender]) url = Ok info →
  (∀ signBytes,
     sd_signCallback sd (h ++ [CallAuthAccounts url sender; CallNodeInfo url])
                     signBytes = Throw e) →
  let refused {A} (run : Result A * History) : Prop :=
    ∃ signBytes,
      run = (Throw e,
             h ++ [CallAuthAccounts url sender; CallNodeInfo url;
                   CallSign signBytes]) in
  (∀ wasmCode memo, refused (upload net c wasmCode memo h))
  ∧ (∀ codeId initMsg memo funds,
       refused (instantiate net c codeId initMsg memo funds h))
  ∧ (∀ contractAddress handleMsg memo funds,
       refused (execute net c contractAddress handleMsg memo funds h))
  ∧ (∀ recipient funds memo,
       refused (sendTokens net c recipient funds memo h)).
Proof.
  intros url sender Hsd Hnet Hacc Hinfo Hsign refused. unfold refused.
  repeat split; intros; enter_course Hsd; eexists;
    first [ by apply (sign_and_post_refused c sd h _ _ _ resp info e)
          | apply bind_Throw;
            by apply (sign_and_post_refused c sd h _ _ _ resp info e) ].
Qed.

(** X9: [sendTokens], answered up to the posting, has sent exactly the
    account query for the sender, the node info query, the signing request
    and the transaction; the sign bytes are made from the message, the
    [send] fee, the chain id and the account's numbers, the transaction
    from the same message, fee and memo with the signer's signature; and
    the outcome is what [postTx] makes of the node's answer. *)
Theorem sendTokens_answered (c : CosmWasmClient) (sd : SigningData)
    (h : History) recipient funds memo (s : Script) :
  let m := MsgSend {| from_address := sd_senderAddress sd;
                      to_address := recipient; amount := funds |} in
  let f := get_fee (fees c) "send" in
  answered net c sd h m f (default "" memo) s →
  sendTokens net c recipient funds memo h =
    (postTx_outcome (on_post s),
     h ++ script_requests (rest_url (restClient c)) (sd_senderAddress sd)
                          s m f (default "" memo)).
Proof.
  intros m f Hs. subst m f. pose proof Hs as (Hsd & _). enter_course Hsd.
  by apply sign_and_post_answered.
Qed.

(** X10: [upload], answered up to the posting, has sent the four requests
    of the course for its store-code message and the [upload] fee; it
    returns the [code_id] attribute of the logs read as a number, and it
    throws what [postTx] or [findAttribute] throws, the transaction having
    been posted all the same. *)
Theorem upload_answered (c : CosmWasmClient) (sd : SigningData)
    (h : History) wasmCode memo (s : Script) :
  let m := MsgStoreCode {| store_sender := sd_senderAddress sd;
                           wasm_byte_code := toBase64 wasmCode;
                           source := ""; builder := "" |} in
  let f := get_fee (fees c) "upload" in
  answered net c sd h m f (default "" memo) s →
  upload net c wasmCode memo h =
    (match postTx_outcome (on_post s) with
     | Ok res =>
         match findAttribute (res_logs res) "message" "code_id" with
         | Ok codeIdAttr => Ok (parseInt (attr_value codeIdAttr))
         | Throw e => Throw e
         end
     | Throw e => Throw e
     end,
     h ++ script_requests (rest_url (restClient c)) (sd_senderAddress sd)
                          s m f (default "" memo)).
Proof.
  intros m f Hs. subst m f. pose proof Hs as (Hsd & _). enter_course Hsd.
  unfold bind at 1. rewrite (sign_and_post_answered c sd h _ _ _ s Hs).
  destruct (postTx_outcome _) as [res|e]; [|done].
  unfold bind, lift, ret. by destruct (findAttribute _ _ _).
Qed.


(** X12: [execute], answered up to the posting, has sent the four requests
    of the course for its execute message and the [exec] fee; it returns
    the logs of the result of [postTx] and throws what [postTx] throws. *)
Theorem execute_answered (c : CosmWasmClient) (sd : SigningData)
    (h : History) contractAddress handleMsg memo funds (s : Script) :
  let m := MsgExecuteContract
             {| exec_sender := sd_senderAddress sd;
                contract := contractAddress;
                msg := handleMsg;
                sent_funds := default [] funds |} in
  let f := get_fee (fees c) "exec" in
  answered net c sd h m f (default "" memo) s →
  execute net c contractAddress handleMsg memo funds h =
    (match postTx_outcome (on_post s) with
     | Ok res => Ok {| exec_logs := res_logs res |}
     | Throw e => Throw e
     end,
     h ++ script_requests (rest_url (restClient c)) (sd_senderAddress sd)
                          s m f (default "" memo)).
Proof.
  intros m f Hs. subst m f. pose proof Hs as (Hsd & _). enter_course Hsd.
  unfold bind at 1. rewrite (sign_and_post_answered c sd h _ _ _ s Hs).
  by destruct (postTx_outcome _) as [res|e].
Qed.

(** The requests of an operation that is answered up to the posting. *)
Lemma upload_answered_requests (c : CosmWasmClient) (sd : SigningData)
    (h : History) wasmCode memo (s : Script) :
  answered net c sd h
    (MsgStoreCode {| store_sender := sd_senderAddress sd;
                     wasm_byte_code := toBase64 wasmCode;
                     source := ""; builder := "" |})
    (get_fee (fees c) "upload") (default "" memo) s →
  (upload net c wasmCode memo h).2 =
    h ++ script_requests (rest_url (restClient c)) (sd_senderAddress sd) s
           (MsgStoreCode {| store_sender := sd_senderAddress sd;
                            wasm_byte_code := toBase64 wasmCode;
                            source := ""; builder := "" |})
           (get_fee (fees c) "upload") (default "" memo).
Proof.
  intros Hs. pose proof Hs as (Hsd & _). enter_course Hsd.
  unfold bind at 1. rewrite (sign_and_post_answered c sd h _ _ _ s Hs).
  destruct (postTx_outcome _) as [res|e]; [|done].
  unfold bind, lift, ret. by destruct (findAttribute _ _ _).
Qed.

Lemma instantiate_answered_requests (c : CosmWasmClient) (sd : SigningData)
    (h : History) codeId initMsg memo funds (s : Script) :
  answered net c sd h
    (MsgInstantiateContract
       {| init_sender := sd_senderAddress sd;
          code_id := number_toString codeId;
          init_msg := initMsg;
          init_funds := default [] funds |})
    (get_fee (fees c) "init") (default "" memo) s →
  (instantiate net c codeId initMsg memo funds h).2 =
    h ++ script_requests (rest_url (restClient c)) (sd_senderAddress sd) s
           (MsgInstantiateContract
              {| init_sender := sd_senderAddress sd;
                 code_id := number_toString codeId;
                 init_msg := initMsg;
                 init_funds := default [] funds |})
           (get_fee (fees c) "init") (default "" memo).
Proof.
  intros Hs. pose proof Hs as (Hsd & _). enter_course Hsd.
  unfold bind at 1. rewrite (sign_and_post_answered c sd h _ _ _ s Hs).
  destruct (postTx_outcome _) as [res|e]; [|done].
  unfold bind, lift, ret. by destruct (findAttribute _ _ _).
Qed.

Lemma execute_answered_requests (c : CosmWasmClient) (sd : SigningData)
    (h : History) contractAddress handleMsg memo funds (s : Script) :
  answered net c sd h
    (MsgExecuteContract
       {| exec_sender := sd_senderAddress sd;
          contract := contractAddress;
          msg := handleMsg;
          sent_funds := default [] funds |})
    (get_fee (fees c) "exec") (default "" memo) s →
  (execute net c contractAddress handleMsg memo funds h).2 =
    h ++ script_requests (rest_url (restClient c)) (sd_senderAddress sd) s
           (MsgExecuteContract
              {| exec_sender := sd_senderAddress sd;
                 contract := contractAddress;
                 msg := handleMsg;
                 sent_funds := default [] funds |})
           (get_fee (fees c) "exec") (default "" memo).
Proof.
  intros Hs. pose proof Hs as (Hsd & _). enter_course Hsd.
  unfold bind at 1. rewrite (sign_and_post_answered c sd h _ _ _ s Hs).
  by destruct (postTx_outcome _) as [res|e].
Qed.

Lemma sendTokens_answered_requests (c : CosmWasmClient) (sd : SigningData)
    (h : History) recipient funds memo (s : Script) :
  answered net c sd h
    (MsgSend {| from_address := sd_senderAddress sd;
                to_address := recipient; amount := funds |})
    (get_fee (fees c) "send") (default "" memo) s →
  (sendTokens net c recipient funds memo h).2 =
    h ++ script_requests (rest_url (restClient c)) (sd_senderAddress sd) s
           (MsgSend {| from_address := sd_senderAddress sd;
                       to_address := recipient; amount := funds |})
           (get_fee (fees c) "send") (default "" memo).
Proof.
  intros Hs. pose proof Hs as (Hsd & _). enter_course Hsd.
  by rewrite (sign_and_post_answered c sd h _ _ _ s Hs).
Qed.

(** C9: the fee table of a client built by [makeWritable] is the default
    table with every field of the custom table put over it; without a
    custom table it is the default table, and [upload], [instantiate],
    [execute] and [sendTokens] use exactly the default fee of the
    operation ([sendTokens]: 2000 ucosm, gas 80000): no signing request
    and no posted transaction of any run is built with another fee, and
    a run that is answered up to the posting sends the signing request and
    the transaction built with that fee. *)
Theorem fee_table_is_default_overridden (url sender : string)
    (cb : SigningCallback) :
  (∀ (customFees : FeeObject) (key : string),
     fees (makeWritable url sender cb (Some customFees)) !! key =
       match customFees !! key with
       | Some v => Some v
       | None => defaultFees !! key
       end)
  ∧ (let c := makeWritable url sender cb None in
     let sd := {| sd_senderAddress := sender; sd_signCallback := cb |} in
     let fee n gas :=
       Some {| fee_amount := [ {| coin_amount := n; coin_denom := "ucosm" |} ];
               fee_gas := gas |} in
     let uses {A} (run : Async A) (m : Msg JsObject) (f : option StdFee)
              (memo : string) : Prop :=
       emits (uses_fee f) run
       ∧ ∀ h s, answered net c sd h m f memo s →
                (run h).2 = h ++ script_requests url sender s m f memo in
     fees c = defaultFees
     ∧ (∀ wasmCode memo,
          uses (upload net c wasmCode memo)
               (MsgStoreCode {| store_sender := sender;
                                wasm_byte_code := toBase64 wasmCode;
                                source := ""; builder := "" |})
               (fee "25000" "1000000") (default "" memo))
     ∧ (∀ codeId initMsg memo funds,
          uses (instantiate net c codeId initMsg memo funds)
               (MsgInstantiateContract
                  {| init_sender := sender;
                     code_id := number_toString codeId;
                     init_msg := initMsg;
                     init_funds := default [] funds |})
               (fee "12500" "500000") (default "" memo))
     ∧ (∀ contractAddress handleMsg memo funds,
          uses (execute net c contractAddress handleMsg memo funds)
               (MsgExecuteContract
                  {| exec_sender := sender;
                     contract := contractAddress;
                     msg := handleMsg;
                     sent_funds := default [] funds |})
               (fee "5000" "200000") (default "" memo))
     ∧ (∀ recipient funds memo,
          uses (sendTokens net c recipient funds memo)
               (MsgSend {| from_address := sender; to_address := recipient;
                           amount := funds |})
               (fee "2000" "80000") (default "" memo))).
Proof.
  split; [intros; apply fees_lookup|].
  intros c sd fee uses.
  assert (fees c = defaultFees) as Hfees.
  { apply map_eq; intros key. unfold c, makeWritable.
    rewrite fees_lookup. unfold default. by rewrite lookup_empty. }
  split; [done|]. unfold uses.
  split; [|split; [|split]]; intros; (split; [|intros h s Hs]).
  - apply (upload_uses_fee net c).
  - by apply (upload_answered_requests c sd h wasmCode memo s).
  - apply (instantiate_uses_fee net c).
  - by apply (instantiate_answered_requests c sd h codeId initMsg memo funds s).
  - apply (execute_uses_fee net c).
  - by apply (execute_answered_requests c sd h contractAddress handleMsg
                                        memo funds s).
  - apply (sendTokens_uses_fee net c).
  - by apply (sendTokens_answered_requests c sd h recipient funds memo s).
Qed.

End CourseFacts.

Section FeesAndEndpoints.
Context `{imports : Imports}.
Variable net : Network.

Ltac by_rules :=
  repeat first
    [ apply emits_ret | apply emits_throw | apply emits_lift
    | apply emits_bind; [idtac .. | intros ?]
    | apply emits_request
    | exact _
    | match goal with
      | |- emits _ (match ?x with _ => _ end) => destruct x
      end ].

Lemma get_fee_of_client (url : string) (sd : option SigningData)
    (customFees : FeeObject) (key : string) :
  get_fee (fees (new_CosmWasmClient url sd customFees)) key =
    match customFees !! key with
    | Some v => v
    | None => get_fee defaultFees key
    end.
Proof.
  unfold get_fee. rewrite fees_lookup. by destruct (customFees !! key).
Qed.

(** X13: on a client built with a custom fee table, each operation signs
    and posts with the value the custom table holds under the operation's
    own key ([upload], [init], [exec], [send]), whatever the other keys
    hold, even when that value is [undefined]; where the custom table has
    no such key, the operation uses the default fee. *)
Theorem custom_fee_is_used (url sender : string) (cb : SigningCallback)
    (customFees : FeeObject) :
  let c := makeWritable url sender cb (Some customFees) in
  let fee_of key :=
    match customFees !! key with
    | Some v => v
    | None => get_fee defaultFees key
    end in
  (∀ wasmCode memo,
     emits (uses_fee (fee_of "upload")) (upload net c wasmCode memo))
  ∧ (∀ codeId initMsg memo funds,
       emits (uses_fee (fee_of "init"))
             (instantiate net c codeId initMsg memo funds))
  ∧ (∀ contractAddress handleMsg memo funds,
       emits (uses_fee (fee_of "exec"))
             (execute net c contractAddress handleMsg memo funds))
  ∧ (∀ recipient funds memo,
       emits (uses_fee (fee_of "send"))
             (sendTokens net c recipient funds memo)).
Proof.
  intros c fee_of. unfold fee_of.
  repeat split; intros;
    rewrite <- (get_fee_of_client url
                  (Some {| sd_senderAddress := sender; sd_signCallback := cb |}));
    change (new_CosmWasmClient url _ customFees) with c.
  - apply upload_uses_fee.
  - apply instantiate_uses_fee.
  - apply execute_uses_fee.
  - apply sendTokens_uses_fee.
Qed.

#[export] Instance only_to_compositional url : Compositional (only_to url).
Proof.
  split; [by constructor|].
  intros new1 new2 H1 H2. by apply Forall_app.
Qed.

Lemma only_to_one (url : string) (call : Call) :
  (∀ u, call_url call = Some u → u = url) → only_to url [call].
Proof. intros Hcall. by repeat constructor. Qed.

Ltac to_own_endpoint :=
  by_rules; apply only_to_one; simpl; intros u Hu; by simplify_eq.

(** X14: every REST call of a client goes to the URL the client was made
    for: [getAccount], [getNonce], [chainId], [postTx], [upload],
    [instantiate], [execute] and [sendTokens] contact no other endpoint,
    whatever the node and the signer answer. *)
Theorem requests_go_to_the_client_url (c : CosmWasmClient) :
  let here := only_to (rest_url (restClient c)) in
  (∀ addr, emits here (getAccount net c addr))
  ∧ (∀ addr, emits here (getNonce net c addr))
  ∧ emits here (chainId net c)
  ∧ (∀ tx, emits here (postTx net c tx))
  ∧ (∀ wasmCode memo, emits here (upload net c wasmCode memo))
  ∧ (∀ codeId initMsg memo funds,
       emits here (instantiate net c codeId initMsg memo funds))
  ∧ (∀ contractAddress handleMsg memo funds,
       emits here (execute net c contractAddress handleMsg memo funds))
  ∧ (∀ recipient funds memo,
       emits here (sendTokens net c recipient funds memo)).
Proof.
  intros here. unfold here.
  repeat split; intros.
  - unfold getAccount, rest_authAccounts. to_own_endpoint.
  - unfold getNonce, getAccount, rest_authAccounts. to_own_endpoint.
  - unfold chainId, rest_nodeInfo. to_own_endpoint.
  - unfold postTx, rest_postTx. to_own_endpoint.
  - unfold upload, call_sign. to_own_endpoint.
  - unfold instantiate, call_sign. to_own_endpoint.
  - unfold execute, call_sign. to_own_endpoint.
  - unfold sendTokens, call_sign. to_own_endpoint.
Qed.

End FeesAndEndpoints.

(** * Properties of the queries *)

Lemma hex_digits_of_byte (b : Byte.byte) :
  is_upper_hex (upper_ascii (hex_digit (Byte.to_N b / 16)))
  && is_upper_hex (upper_ascii (hex_digit (Byte.to_N b mod 16))) = true.
Proof. destruct b; reflexivity. Qed.

Lemma upper_hex_length (data : bytes) :
  String.length (toUpperCase (toHex data)) = (2 * length data)%nat.
Proof. induction data as [|b data IH]; simpl; [done|]. rewrite IH. lia. Qed.

Lemma upper_hex_characters (data : bytes) :
  forallb is_upper_hex
          (String.list_ascii_of_string (toUpperCase (toHex data))) = true.
Proof.
  induction data as [|b data IH]; simpl; [done|].
  pose proof (hex_digits_of_byte b) as Hb.
  apply andb_true_iff in Hb as [-> ->]. by rewrite IH.
Qed.

Lemma upper_hex_reads_back (data : bytes) :
  fromUpperHex (toUpperCase (toHex data)) = Some data.
Proof.
  induction data as [|b data IH]; [done|].
  change (toUpperCase (toHex (b :: data))) with
    (String (upper_ascii (hex_digit (Byte.to_N b / 16)))
       (String (upper_ascii (hex_digit (Byte.to_N b mod 16)))
          (toUpperCase (toHex data)))).
  cbn [fromUpperHex]. rewrite IH. by destruct b.
Qed.

Lemma even_double (n : nat) : Nat.even (2 * n) = true.
Proof. apply Nat.even_spec. by exists n. Qed.

Lemma no_contract_found_differs (addr : string) :
  no_contract_found addr ≠ "not found: contract".
Proof. done. Qed.

Section QueryFacts.
Context `{imports : Imports}.
Context {CosmosSdkTx BlockResponse ContractInfo TxBody NonError : Type}.
Variable sha256 : bytes → bytes.
Variable qnet :
  @QueryNetwork imports CosmosSdkTx BlockResponse ContractInfo TxBody NonError.

(** X15: [getIdentifier] asks the node once for the encoding of the
    transaction and returns the digest of the answer in upper-case hex:
    the text reads back as the bytes of the digest, two characters a
    byte, each one of [0-9A-F]; for a 32 byte digest these are 64
    characters in the format [postTx] demands of a transaction hash. *)
Theorem getIdentifier_is_upper_hex (c : CosmWasmClient) (tx : CosmosSdkTx)
    (h : list QueryCall) (encoded : bytes) :
  net_encodeTx qnet h (rest_url (restClient c)) tx = Fulfilled encoded →
  let identifier := toUpperCase (toHex (sha256 encoded)) in
  getIdentifier sha256 qnet c tx h =
    (Fulfilled identifier, h ++ [CallEncodeTx (rest_url (restClient c)) tx])
  ∧ fromUpperHex identifier = Some (sha256 encoded)
  ∧ String.length identifier = (2 * length (sha256 encoded))%nat
  ∧ forallb is_upper_hex (String.list_ascii_of_string identifier) = true
  ∧ (length (sha256 encoded) = 32%nat →
     String.length identifier = 64%nat
     ∧ txhash_matches identifier = true).
Proof.
  intros Hnet identifier. subst identifier.
  split.
  { unfold getIdentifier, task_bind, rest_encodeTx, task_request, task_ret.
    by rewrite Hnet. }
  split; [apply upper_hex_reads_back|].
  split; [apply upper_hex_length|]. split; [apply upper_hex_characters|].
  intros Hlen.
  assert (String.length (toUpperCase (toHex (sha256 encoded))) = 64%nat)
    as Hsize by (rewrite upper_hex_length; lia).
  split; [done|]. apply txhash_matches_spec.
  split; [intros Hempty; by rewrite Hempty in Hsize|].
  split; [by rewrite upper_hex_length, even_double|].
  apply upper_hex_characters.
Qed.

(** X16: [searchTx] by [sentFromOrTo] asks twice, for the transactions
    sent by the address and for those received by it, both limited to 75.
    It returns the sent ones as answered, followed by the received ones
    whose hash is not among the sent, in the order they were answered:
    the hashes of the result are those of either answer, and when neither
    answer repeats a hash, the result repeats none. *)
Theorem searchTx_merges_sent_and_received (c : CosmWasmClient)
    (query : SearchTxQuery) (who : string) (h : list QueryCall)
    (sent received : SearchTxsResponse TxBody) :
  let url := rest_url (restClient c) in
  let ask_sent := CallTxs url (limited ("message.sender=" +:+ who)) in
  let ask_received := CallTxs url (limited ("transfer.recipient=" +:+ who)) in
  let found :=
    txs sent
      ++ filter (λ t, txs_txhash t ∉ txs_txhash <$> txs sent) (txs received) in
  query_id query = None → query_height query = None →
  query_sentFromOrTo query = Some who →
  net_txs qnet h url (limited ("message.sender=" +:+ who)) = Fulfilled sent →
  net_txs qnet (h ++ [ask_sent]) url
          (limited ("transfer.recipient=" +:+ who)) = Fulfilled received →
  searchTx qnet c query h = (Fulfilled found, h ++ [ask_sent; ask_received])
  ∧ (∀ x, x ∈ txs_txhash <$> found ↔
          x ∈ txs_txhash <$> txs sent ∨ x ∈ txs_txhash <$> txs received)
  ∧ (NoDup (txs_txhash <$> txs sent) →
     NoDup (txs_txhash <$> txs received) →
     NoDup (txs_txhash <$> found)).
Proof.
  intros url ask_sent ask_received found Hid Hheight Hwho Hsent Hreceived.
  subst url ask_sent ask_received found.
  split.
  { unfold searchTx. rewrite Hid, Hheight, Hwho.
    unfold task_bind, rest_txs, task_request, task_ret.
    rewrite Hsent, Hreceived. by rewrite <- app_assoc. }
  split.
  - intros x. rewrite fmap_app, elem_of_app, !list_elem_of_fmap.
    split.
    + intros [Hx|(t & -> & Ht)]; [by left|].
      apply list_elem_of_filter in Ht as [_ Ht]. right. by exists t.
    + intros [Hx|(t & -> & Ht)]; [by left|].
      destruct (decide (txs_txhash t ∈ txs_txhash <$> txs sent))
        as [Hin|Hout].
      * left. by apply list_elem_of_fmap in Hin.
      * right. exists t. split; [done|]. by apply list_elem_of_filter.
  - intros Hnd_sent Hnd_received. rewrite fmap_app.
    apply NoDup_app. split; [done|]. split.
    + intros x Hx (t & -> & Ht)%list_elem_of_fmap.
      by apply list_elem_of_filter in Ht as [Hout _].
    + apply (sublist_NoDup _ (txs_txhash <$> txs received)); [done|].
      apply fmap_sublist, sublist_filter.
Qed.

(** X17: [searchTx] on a query with none of the fields [id], [height],
    [sentFromOrTo] throws "Unknown query type" and asks the node nothing;
    a query with an [id] is searched by hash alone, in one request,
    whatever its other fields hold. *)
Theorem searchTx_dispatch (c : CosmWasmClient) (query : SearchTxQuery)
    (h : list QueryCall) :
  (query_id query = None → query_height query = None →
   query_sentFromOrTo query = None →
   searchTx qnet c query h = (Rejected (ThrownError "Unknown query type"), h))
  ∧ (∀ id, query_id query = Some id →
       searchTx qnet c query h =
         (match net_txs qnet h (rest_url (restClient c)) ("tx.hash=" +:+ id) with
          | Fulfilled found => Fulfilled (txs found)
          | Rejected t => Rejected t
          end,
          h ++ [CallTxs (rest_url (restClient c)) ("tx.hash=" +:+ id)])).
Proof.
  split.
  - intros Hid Hheight Hwho. unfold searchTx. by rewrite Hid, Hheight, Hwho.
  - intros id Hid. unfold searchTx. rewrite Hid.
    unfold task_bind, rest_txs, task_request, task_ret.
    by destruct (net_txs _ _ _ _).
Qed.

(** X18: [queryContractRaw] first asks for the contract's info; when that
    call is rejected, the rejection is passed on and the storage is never
    queried; otherwise the storage query follows and its answer, data or
    [null], is the result. *)
Theorem queryContractRaw_checks_contract_first (c : CosmWasmClient)
    (addr : string) (key : bytes) (h : list QueryCall) :
  let url := rest_url (restClient c) in
  (∀ t, net_getContractInfo qnet h url addr = Rejected t →
     queryContractRaw qnet c addr key h =
       (Rejected t, h ++ [CallContractInfo url addr]))
  ∧ (∀ info, net_getContractInfo qnet h url addr = Fulfilled info →
       queryContractRaw qnet c addr key h =
         (net_queryContractRaw qnet (h ++ [CallContractInfo url addr])
                               url addr key,
          h ++ [CallContractInfo url addr; CallQueryRaw url addr key])).
Proof.
  intros url. subst url.
  unfold queryContractRaw, task_bind, rest_getContractInfo,
    rest_queryContractRaw, task_request.
  split; [intros t Hnet|intros info Hnet]; rewrite Hnet; [done|].
  by rewrite <- app_assoc.
Qed.

(** X19: [queryContractSmart] asks once.  It never throws the error
    "not found: contract": that error of the transport is replaced by the
    error naming the address; every other thrown value, an [Error] or
    not, and every result is passed on as it is. *)
Theorem queryContractSmart_names_the_contract (c : CosmWasmClient)
    (addr : string) (queryMsg : JsObject) (h : list QueryCall) :
  let url := rest_url (restClient c) in
  let answer := net_queryContractSmart qnet h url addr queryMsg in
  let run := queryContractSmart qnet c addr queryMsg h in
  run.2 = h ++ [CallQuerySmart url addr queryMsg]
  ∧ run.1 ≠ Rejected (ThrownError "not found: contract")
  ∧ (answer = Rejected (ThrownError "not found: contract") →
     run.1 = Rejected (ThrownError (no_contract_found addr)))
  ∧ (answer ≠ Rejected (ThrownError "not found: contract") →
     run.1 = answer).
Proof.
  intros url answer run. subst url answer run.
  unfold queryContractSmart, task_catch, rest_queryContractSmart,
    task_request, task_throw.
  destruct (net_queryContractSmart _ _ _ _ _) as [a|[message|v]]; simpl.
  - done.
  - destruct (decide (message = "not found: contract")) as [->|Hne]; simpl.
    + split; [done|]. split; [|done].
      intros Heq. apply (no_contract_found_differs addr). congruence.
    + repeat split; try done; congruence.
  - done.
Qed.

End QueryFacts.

(** ** The further properties on the scripted nodes *)

Module ExtraRuns.
Import Sample ExtraSample.

#[local] Existing Instance Sample.imports.

Lemma postTx_hash_is_upper_hex_witness :
  let r := {| res_logs := []; rawLog := "[]"; transactionHash := "0A1B" |} in
  transactionHash r ≠ ""
  ∧ Nat.even (String.length (transactionHash r)) = true
  ∧ forallb is_upper_hex (String.list_ascii_of_string (transactionHash r))
    = true.
Proof.
  apply (postTx_hash_is_upper_hex node (makeReadOnly "http://accepting") [] []
           {| res_logs := []; rawLog := "[]"; transactionHash := "0A1B" |}).
  reflexivity.
Defined.


Lemma getAccount_returns_existing_account_witness :
  address alice_account ≠ "".
Proof.
  apply (getAccount_returns_existing_account node (makeReadOnly "http://node")
           (Some alice) [] [CallAuthAccounts "http://node" alice]
           alice_account).
  reflexivity.
Defined.

Lemma unset_address_means_sender_witness :
  getNonce node alice_client None [] = getNonce node alice_client (Some alice) [].
Proof.
  apply (unset_address_means_sender node alice_client alice_signing []).
  reflexivity.
Defined.

Lemma unknown_sender_stops_every_operation_witness :
  sendTokens node stranger_client "cosmos1recipient" [] None [] =
    (Throw account_missing, [CallAuthAccounts "http://node" "cosmos1unknown"]).
Proof.
  apply (unknown_sender_stops_every_operation node stranger_client
           stranger_signing []
           {| result := {| value := no_account |} |});
    reflexivity.
Defined.

Lemma refusing_signer_posts_nothing_witness :
  ∃ signBytes,
    sendTokens node refusing_client "cosmos1recipient" [] None [] =
      (Throw "Request rejected",
       [CallAuthAccounts "http://node" alice; CallNodeInfo "http://node";
        CallSign signBytes]).
Proof.
  apply (refusing_signer_posts_nothing node refusing_client alice_refusing []
           {| result := {| value := alice_account |} |} testing
           "Request rejected");
    [reflexivity | reflexivity | discriminate | reflexivity
    | intros; reflexivity].
Defined.

Lemma sendTokens_answered_witness :
  sendTokens node alice_client "cosmos1recipient" [] (Some "rent") [] =
    (Ok {| res_logs := []; rawLog := "[]"; transactionHash := "0A1B" |},
     [CallAuthAccounts "http://node" alice; CallNodeInfo "http://node";
      CallSign (String.list_byte_of_string "testing/rent/80000");
      CallPostTx "http://node" (String.list_byte_of_string "rent/80000")]).
Proof.
  apply (sendTokens_answered node alice_client alice_signing []
           "cosmos1recipient" [] (Some "rent") (script_of "80000")).
  repeat split; discriminate.
Defined.

Lemma upload_answered_witness :
  upload node alice_client [] (Some "rent") [] =
    (Ok None,
     [CallAuthAccounts "http://node" alice; CallNodeInfo "http://node";
      CallSign (String.list_byte_of_string "testing/rent/1000000");
      CallPostTx "http://node" (String.list_byte_of_string "rent/1000000")]).
Proof.
  apply (upload_answered node alice_client alice_signing []
           [] (Some "rent") (script_of "1000000")).
  repeat split; discriminate.
Defined.


Lemma execute_answered_witness :
  execute node alice_client "cosmos1contract" "{}" (Some "rent") None [] =
    (Ok {| exec_logs := [] |},
     [CallAuthAccounts "http://node" alice; CallNodeInfo "http://node";
      CallSign (String.list_byte_of_string "testing/rent/200000");
      CallPostTx "http://node" (String.list_byte_of_string "rent/200000")]).
Proof.
  apply (execute_answered node alice_client alice_signing []
           "cosmos1contract" "{}" (Some "rent") None (script_of "200000")).
  repeat split; discriminate.
Defined.

(** A transfer without a custom fee table: the four requests carry the
    default [send] fee, gas 80000. *)
Lemma fee_table_is_default_overridden_witness :
  (sendTokens node alice_client "cosmos1recipient" [] (Some "rent") []).2 =
    [CallAuthAccounts "http://node" alice; CallNodeInfo "http://node";
     CallSign (String.list_byte_of_string "testing/rent/80000");
     CallPostTx "http://node" (String.list_byte_of_string "rent/80000")].
Proof.
  destruct (fee_table_is_default_overridden node "http://node" alice signer)
    as (_ & _ & _ & _ & _ & Hsend).
  destruct (Hsend "cosmos1recipient" [] (Some "rent")) as (_ & Hrun).
  apply (Hrun [] (script_of "80000")).
  repeat split; discriminate.
Defined.

End ExtraRuns.

Module QueryRuns.
Import QuerySample.

#[local] Existing Instance Sample.imports.

Lemma getIdentifier_is_upper_hex_witness :
  getIdentifier digest node client "tx" [] =
    (Fulfilled
       "7478000000000000000000000000000000000000000000000000000000000000",
     [CallEncodeTx "http://node" "tx"]).
Proof.
  apply (getIdentifier_is_upper_hex digest node client "tx" []
           (String.list_byte_of_string "tx")).
  reflexivity.
Defined.

Lemma searchTx_merges_sent_and_received_witness :
  searchTx node client (by_address "alice") [] =
    (Fulfilled [tx_a; tx_b; tx_c],
     [CallTxs "http://node" "message.sender=alice&limit=75";
      CallTxs "http://node" "transfer.recipient=alice&limit=75"]).
Proof.
  apply (searchTx_merges_sent_and_received node client (by_address "alice")
           "alice" [] {| txs := [tx_a; tx_b] |} {| txs := [tx_b; tx_c] |});
    reflexivity.
Defined.

Example searchTx_by_address_sample :
  (searchTx node client (by_address "alice") []).1
  = Fulfilled [tx_a; tx_b; tx_c].
Proof. vm_compute. reflexivity. Qed.

Lemma searchTx_dispatch_witness :
  searchTx node client
    {| query_id := None; query_height := None; query_sentFromOrTo := None |} []
  = (Rejected (ThrownError "Unknown query type"), []).
Proof.
  apply (searchTx_dispatch node client
           {| query_id := None; query_height := None;
              query_sentFromOrTo := None |} []);
    reflexivity.
Defined.

Lemma queryContractRaw_checks_contract_first_witness :
  queryContractRaw node client "cosmos1nothing" [Byte.x01] [] =
    (Rejected (ThrownError "not found: contract"),
     [CallContractInfo "http://node" "cosmos1nothing"]).
Proof.
  apply (queryContractRaw_checks_contract_first node client "cosmos1nothing"
           [Byte.x01] []).
  reflexivity.
Defined.

Lemma queryContractSmart_names_the_contract_witness :
  (queryContractSmart node client "cosmos1nothing" "{}" []).1 =
    Rejected (ThrownError (no_contract_found "cosmos1nothing")).
Proof.
  apply (queryContractSmart_names_the_contract node client "cosmos1nothing"
           "{}" []).
  reflexivity.
Defined.

End QueryRuns.
